(** * bereal-date-correcter: a shallow embedding and its verified properties

    The program walks a directory of timestamp-named folders, copies a fixed
    set of media files out of each into one flat directory and stamps every
    copy with the instant its folder name encodes.

    Conventions of the embedding.
    - A Python [str] is the list of its code points ([list N]); byte strings
      are lists of byte values.  Literals are written with [str_of].
    - A [Path] is the list of the components of an absolute, resolved path.
    - The file system is a finite map from paths to nodes.  Permissions,
      quotas and device errors are outside the model: an operation fails
      only when the shape of the tree forbids it.
    - What the interpreter and the host decide (the Unicode tables, the zone
      offset of the host, the optional [piexif] module) is gathered in a
      [Runtime] record every function takes as [rt]. *)

From Stdlib Require Import ZArith List String Ascii Lia.
From stdpp Require Import base option list gmap strings pretty.

Local Open Scope Z_scope.

(** ** Python strings *)

Abbreviation pystr := (list N).

Fixpoint str_of (s : string) : pystr :=
  match s with
  | EmptyString => []
  | String a s' => N_of_ascii a :: str_of s'
  end.

Definition is_ascii (c : N) : bool := (c <? 128)%N.

(** [str.lower] on an ASCII character. *)
Definition ascii_lower (c : N) : N :=
  if ((65 <=? c) && (c <=? 90))%N then (c + 32)%N else c.

(** The exceptions of class [Exception] the program meets, and what can
    reach the top of the process: one of them uncaught, or [SystemExit]. *)
Inductive exception :=
  | ValueError
  | FileExistsError (p : list pystr)
  | FileNotFoundError (p : list pystr)
  | NotADirectoryError (p : list pystr)
  | IsADirectoryError (p : list pystr)
  | SameFileError (p : list pystr)
  | OSError (p : list pystr)
  | KeyError
  | LibraryError (code : N).

Inductive raised :=
  | Uncaught (e : exception)
  | SystemExit (msg : pystr).

Inductive result (A : Type) :=
  | Ok (a : A)
  | Raise (e : raised)
  | OutOfFuel.
Arguments Ok {A} a.
Arguments Raise {A} e.
Arguments OutOfFuel {A}.

(** ** The file system *)

Abbreviation path := (list pystr).

Record file := mkFile {
  content : list N;
  st_mode : N;
  st_atime : Z;
  st_mtime : Z
}.

Inductive node :=
  | NFile (f : file)
  | NDir
  | NSpecial.

(** ** The embedded metadata block, as [piexif] presents it *)

Inductive exif_value :=
  | EBytes (b : list N)
  | EInt (z : Z)
  | EInts (zs : list Z).

Abbreviation ifd := (gmap N exif_value).
Abbreviation exif_dict := (gmap string ifd).

Record Piexif := mkPiexif {
  piexif_load : file -> exception + exif_dict;
  piexif_dump : exif_dict -> exception + list N;
  piexif_insert : list N -> file -> exception + file
}.

(** ** What the interpreter and the host provide *)

Record Runtime := mkRuntime {
  (** decimal value of a non-ASCII code point of category Nd *)
  unicode_decimal : N -> option Z;
  (** [str.lower] on a string that is not pure ASCII *)
  unicode_lower : pystr -> pystr;
  (** UTC offset, in seconds, the host reports at its k-th query *)
  utcoffset_at : nat -> Z;
  (** the [piexif] module, [None] when importing it raises [ImportError] *)
  piexif : option Piexif
}.

Definition lower (rt : Runtime) (s : pystr) : pystr :=
  if forallb is_ascii s then map ascii_lower s else unicode_lower rt s.

(** Value of a character [\d] matches and [int] reads, if it is one. *)
Definition decimal_value (rt : Runtime) (c : N) : option Z :=
  if ((48 <=? c) && (c <=? 57))%N then Some (Z.of_N c - 48)
  else if is_ascii c then None
  else unicode_decimal rt c.

Definition is_decimal (rt : Runtime) (c : N) : bool :=
  match decimal_value rt c with Some _ => true | None => false end.

(** [int(s)] on a string of decimal digits. *)
Definition int_of (rt : Runtime) (s : pystr) : Z :=
  fold_left (fun acc c => 10 * acc + default 0 (decimal_value rt c)) s 0.

(** ** FOLDER_RE *)

(** [\d{n}]: exactly [n] decimal digits; the group and the rest. *)
Fixpoint digits (rt : Runtime) (n : nat) (s : pystr) : option (pystr * pystr) :=
  match n, s with
  | O, _ => Some ([], s)
  | S n', c :: s' =>
      if is_decimal rt c then
        match digits rt n' s' with
        | Some (g, r) => Some (c :: g, r)
        | None => None
        end
      else None
  | S _, [] => None
  end.

Definition hyphen (s : pystr) : option pystr :=
  match s with
  | c :: r => if (c =? 45)%N then Some r else None
  | [] => None
  end.

(** [$] without MULTILINE: the end of the string, or just before a newline
    that ends it. *)
Definition at_end (s : pystr) : bool :=
  match s with
  | [] => true
  | [10%N] => true
  | _ => false
  end.

(** [FOLDER_RE.match(s)]: the six groups, or [None]. *)
Definition FOLDER_RE_match (rt : Runtime) (s : pystr) : option (list pystr) :=
  '(g1, r) ← digits rt 4 s; r ← hyphen r;
  '(g2, r) ← digits rt 2 r; r ← hyphen r;
  '(g3, r) ← digits rt 2 r; r ← hyphen r;
  '(g4, r) ← digits rt 2 r; r ← hyphen r;
  '(g5, r) ← digits rt 2 r; r ← hyphen r;
  '(g6, r) ← digits rt 2 r;
  if at_end r then Some [g1; g2; g3; g4; g5; g6] else None.

(** ** datetime *)

Record datetime := mkDatetime {
  year : Z; month : Z; day : Z;
  hour : Z; minute : Z; second : Z;
  (** offset from UTC in seconds; [None] for a naive datetime *)
  tzinfo : option Z
}.

Definition is_leap (y : Z) : bool :=
  (y mod 4 =? 0) && (negb (y mod 100 =? 0) || (y mod 400 =? 0)).

Definition days_in_month (y m : Z) : Z :=
  if m =? 2 then (if is_leap y then 29 else 28)
  else if (m =? 4) || (m =? 6) || (m =? 9) || (m =? 11) then 30
  else 31.

Definition valid_fields (y mo d h mi s : Z) : bool :=
  (1 <=? y) && (y <=? 9999) && (1 <=? mo) && (mo <=? 12) &&
  (1 <=? d) && (d <=? days_in_month y mo) &&
  (0 <=? h) && (h <=? 23) && (0 <=? mi) && (mi <=? 59) &&
  (0 <=? s) && (s <=? 59).

(** [datetime(y, mo, d, h, mi, s)]: naive, or [ValueError]. *)
Definition datetime_new (y mo d h mi s : Z) : exception + datetime :=
  if valid_fields y mo d h mi s
  then inr (mkDatetime y mo d h mi s None)
  else inl ValueError.

Definition replace_tzinfo (dt : datetime) (tz : Z) : datetime :=
  mkDatetime (year dt) (month dt) (day dt) (hour dt) (minute dt) (second dt) (Some tz).

Definition utc : Z := 0.

Definition days_before_year (y : Z) : Z :=
  let y' := y - 1 in y' * 365 + y' / 4 - y' / 100 + y' / 400.

Definition days_before_month (y m : Z) : Z :=
  nth (Z.to_nat m) [-1; 0; 31; 59; 90; 120; 151; 181; 212; 243; 273; 304; 334] 0
  + (if (2 <? m) && is_leap y then 1 else 0).

Definition ymd2ord (y m d : Z) : Z :=
  days_before_year y + days_before_month y m + d.

(** [dt.timestamp()] of an aware datetime with whole seconds. *)
Definition timestamp (dt : datetime) : Z :=
  (ymd2ord (year dt) (month dt) (day dt) - 719163) * 86400
  + hour dt * 3600 + minute dt * 60 + second dt
  - default 0 (tzinfo dt).

(** ** The world and the monad of effects *)

Record world := mkWorld {
  files : gmap path node;
  (** how many times the host has been asked for its zone offset *)
  tz_reads : nat;
  (** the lines printed so far *)
  stdout : list pystr
}.

Definition M (A : Type) : Type := world -> result A * world.

Definition ret {A} (a : A) : M A := fun w => (Ok a, w).

Definition bind {A B} (m : M A) (k : A -> M B) : M B :=
  fun w =>
    match m w with
    | (Ok a, w') => k a w'
    | (Raise e, w') => (Raise e, w')
    | (OutOfFuel, w') => (OutOfFuel, w')
    end.

Definition raise {A} (e : exception) : M A := fun w => (Raise (Uncaught e), w).

Definition lift {A} (r : exception + A) : M A :=
  match r with
  | inl e => raise e
  | inr a => ret a
  end.

Notation "'let*' x ':=' m 'in' k" := (bind m (fun x => k))
  (at level 10, x name, m at level 100, k at level 200).
Notation "m ';;' k" := (bind m (fun _ => k))
  (at level 100, k at level 200, right associativity).

Definition set_files (fs : gmap path node) (w : world) : world :=
  mkWorld fs (tz_reads w) (stdout w).

(** [datetime.now().astimezone().tzinfo]: the offset the host has now. *)
Definition local_tz (rt : Runtime) : M Z :=
  fun w => (Ok (utcoffset_at rt (tz_reads w)),
            mkWorld (files w) (S (tz_reads w)) (stdout w)).

Definition print (line : pystr) : M unit :=
  fun w => (Ok tt, mkWorld (files w) (tz_reads w) (stdout w ++ [line])).

(** ** parse_folder_datetime *)

Definition parse_folder_datetime (rt : Runtime) (folder_name : pystr)
    (use_utc : bool) : M datetime :=
  match FOLDER_RE_match rt folder_name with
  | None => raise ValueError
  | Some groups =>
      match map (int_of rt) groups with
      | [y; mo; d; h; mi; s] =>
          let* dt := lift (datetime_new y mo d h mi s) in
          if use_utc then ret (replace_tzinfo dt utc)
          else
            let* local := local_tz rt in
            ret (replace_tzinfo dt local)
      | _ => raise ValueError
      end
  end.

(** ** pathlib *)

Definition name (p : path) : pystr := default [] (last p).
Definition parent (p : path) : path := removelast p.
Definition joinpath (p : path) (child : pystr) : path := p ++ [child].

(** [s.rfind(c)], -1 when [c] does not occur. *)
Fixpoint rfind (c : N) (s : pystr) : Z :=
  match s with
  | [] => -1
  | x :: s' =>
      let r := rfind c s' in
      if 0 <=? r then r + 1
      else if (x =? c)%N then 0
      else -1
  end.

Definition has_suffix (nm : pystr) : bool :=
  let i := rfind 46 nm in (0 <? i) && (i <? Z.of_nat (length nm) - 1).

Definition suffix (p : path) : pystr :=
  let nm := name p in
  if has_suffix nm then drop (Z.to_nat (rfind 46 nm)) nm else [].

Definition stem (p : path) : pystr :=
  let nm := name p in
  if has_suffix nm then take (Z.to_nat (rfind 46 nm)) nm else nm.

(** [str(p)] *)
Definition path_str (p : path) : pystr :=
  match p with
  | [] => [47%N]
  | _ => concat (map (fun c => 47%N :: c) p)
  end.

Definition path_exists (fs : gmap path node) (p : path) : bool :=
  match fs !! p with Some _ => true | None => false end.

Definition is_dir (fs : gmap path node) (p : path) : bool :=
  match fs !! p with Some NDir => true | _ => false end.

Definition is_file (fs : gmap path node) (p : path) : bool :=
  match fs !! p with Some (NFile _) => true | _ => false end.

(** ** ensure_unique_path *)

(** [parent / f"{stem}-{i}{suffix}"] *)
Definition candidate (p : path) (i : Z) : path :=
  joinpath (parent p) (stem p ++ str_of "-" ++ str_of (pretty i) ++ suffix p).

(** The [while True] loop, entered with counter [i]; [fuel] bounds the
    number of probes the model makes. *)
Fixpoint probe (fuel : nat) (fs : gmap path node) (p : path) (i : Z) : option path :=
  match fuel with
  | O => None
  | S fuel' =>
      if negb (path_exists fs (candidate p i)) then Some (candidate p i)
      else probe fuel' fs p (i + 1)
  end.

Definition ensure_unique_path (fuel : nat) (fs : gmap path node)
    (dest_path : path) : option path :=
  if negb (path_exists fs dest_path) then Some dest_path
  else probe fuel fs dest_path 1.

(** ** File-system operations *)

Definition get_files : M (gmap path node) := fun w => (Ok (files w), w).
Definition put_files (fs : gmap path node) : M unit := fun w => (Ok tt, set_files fs w).

(** [p.mkdir(parents=True, exist_ok=True)], walking down from the root:
    [done] is the directory reached, [rest] the components still to enter. *)
Fixpoint mkdir_from (target done : path) (rest : list pystr)
    (fs : gmap path node) : exception + gmap path node :=
  match rest with
  | [] => inr fs
  | c :: rest' =>
      let p := joinpath done c in
      match fs !! p with
      | Some NDir => mkdir_from target p rest' fs
      | Some _ =>
          match rest' with
          | [] => inl (FileExistsError target)
          | _ => inl (NotADirectoryError target)
          end
      | None => mkdir_from target p rest' (<[p := NDir]> fs)
      end
  end.

Definition mkdir_parents (p : path) : M unit :=
  let* fs := get_files in
  let* fs' := lift (mkdir_from p [] p fs) in
  put_files fs'.

(** The names [os.listdir] finds in [dir], in the order the map keeps them
    (the order of a directory listing is unspecified). *)
Definition listdir (fs : gmap path node) (dir : path) : list pystr :=
  omap (fun q : path =>
          match q with
          | [] => None
          | _ => if bool_decide (parent q = dir) then Some (name q) else None
          end)
       (map fst (map_to_list fs)).

(** [list(p.iterdir())] *)
Definition iterdir (p : path) : M (list path) :=
  let* fs := get_files in
  match fs !! p with
  | Some NDir => ret (map (joinpath p) (listdir fs p))
  | Some _ => raise (NotADirectoryError p)
  | None => raise (FileNotFoundError p)
  end.

(** [shutil.copy2(src, dst)]: bytes and metadata. *)
Definition copy2 (src dst : path) : M unit :=
  let* fs := get_files in
  let target := if is_dir fs dst then joinpath dst (name src) else dst in
  match fs !! src with
  | Some (NFile f) =>
      if bool_decide (src = target) then raise (SameFileError src)
      else match fs !! target with
           | Some NDir => raise (IsADirectoryError target)
           | Some NSpecial => raise (OSError target)
           | _ =>
               if is_dir fs (parent target)
               then put_files (<[target := NFile f]> fs)
               else raise (FileNotFoundError target)
           end
  | Some NDir => raise (IsADirectoryError src)
  | Some NSpecial => raise (OSError src)
  | None => raise (FileNotFoundError src)
  end.

(** [os.utime(p, (atime, mtime))] *)
Definition utime (p : path) (atime mtime : Z) : M unit :=
  let* fs := get_files in
  match fs !! p with
  | Some (NFile f) =>
      put_files (<[p := NFile (mkFile (content f) (st_mode f) atime mtime)]> fs)
  | Some _ => ret tt
  | None => raise (FileNotFoundError p)
  end.

Definition set_fs_times (p : path) (dt : datetime) : M unit :=
  let ts := timestamp dt in
  utime p ts ts.

(** ** update_exif_datetime *)

(** [str(v).zfill(width)] for a field of a date. *)
Definition zfill (width : nat) (v : Z) : pystr :=
  let s := str_of (pretty v) in
  replicate (width - length s) 48%N ++ s.

(** [dt.strftime("%Y:%m:%d %H:%M:%S").encode("ascii")] *)
Definition exif_strftime (dt : datetime) : list N :=
  zfill 4 (year dt) ++ str_of ":" ++ zfill 2 (month dt) ++ str_of ":" ++
  zfill 2 (day dt) ++ str_of " " ++ zfill 2 (hour dt) ++ str_of ":" ++
  zfill 2 (minute dt) ++ str_of ":" ++ zfill 2 (second dt).

Definition ImageIFD_DateTime : N := 306.
Definition ExifIFD_DateTimeOriginal : N := 36867.
Definition ExifIFD_DateTimeDigitized : N := 36868.

(** [d.setdefault(k, {})] *)
Definition setdefault (k : string) (d : exif_dict) : exif_dict :=
  match d !! k with
  | Some _ => d
  | None => <[k := ∅]> d
  end.

(** [d[k][tag] = v] *)
Definition set_tag (k : string) (tag : N) (v : exif_value)
    (d : exif_dict) : exception + exif_dict :=
  match d !! k with
  | Some i => inr (<[k := <[tag := v]> i]> d)
  | None => inl KeyError
  end.

Definition and_then {A B} (r : exception + A) (k : A -> exception + B) : exception + B :=
  match r with
  | inl e => inl e
  | inr a => k a
  end.

(** The body of the second [try]: the file with its tags rewritten, or the
    exception that interrupts it. *)
Definition exif_rewrite (px : Piexif) (dt : datetime) (f : file) : exception + file :=
  and_then (piexif_load px f) (fun exif_dict =>
  let exif_str := EBytes (exif_strftime dt) in
  let exif_dict := setdefault "0th" exif_dict in
  and_then (set_tag "0th" ImageIFD_DateTime exif_str exif_dict) (fun exif_dict =>
  let exif_dict := setdefault "Exif" exif_dict in
  and_then (set_tag "Exif" ExifIFD_DateTimeOriginal exif_str exif_dict) (fun exif_dict =>
  and_then (set_tag "Exif" ExifIFD_DateTimeDigitized exif_str exif_dict) (fun exif_dict =>
  and_then (piexif_dump px exif_dict) (fun exif_bytes =>
  piexif_insert px exif_bytes f))))).

Definition update_exif_datetime (rt : Runtime) (p : path) (dt : datetime) : M bool :=
  match piexif rt with
  | None => ret false
  | Some px =>
      fun w =>
        match files w !! p with
        | Some (NFile f) =>
            match exif_rewrite px dt f with
            | inr f' => (Ok true, set_files (<[p := NFile f']> (files w)) w)
            | inl _ => (Ok false, w)
            end
        | _ => (Ok false, w)
        end
  end.

(** ** main *)

Definition TARGET_FILES : gset pystr :=
  {[ str_of "merged.jpg"; str_of "primary.jpg";
     str_of "secondary.jpg"; str_of "video.mp4" ]}.

(** [child.name.lower() in TARGET_FILES] *)
Definition is_target (rt : Runtime) (nm : pystr) : bool :=
  bool_decide (lower rt nm ∈ TARGET_FILES).

Record counters := mkCounters { copied : Z; skipped : Z }.

Definition add_copied (c : counters) : counters := mkCounters (copied c + 1) (skipped c).
Definition add_skipped (c : counters) : counters := mkCounters (copied c) (skipped c + 1).

(** [f"{folder_name}-{child.name}"] *)
Definition new_name (folder_name child_name : pystr) : pystr :=
  folder_name ++ str_of "-" ++ child_name.

Definition unique_path (fuel : nat) (p : path) : M path :=
  fun w =>
    match ensure_unique_path fuel (files w) p with
    | Some q => (Ok q, w)
    | None => (OutOfFuel, w)
    end.

(** Lines 139-152: what is done with a file of the target set. *)
Definition transfer (rt : Runtime) (fuel : nat) (dest_dir : path)
    (folder_name : pystr) (dt : datetime) (write_exif : bool)
    (child : path) (c : counters) : M counters :=
  let* out_path := unique_path fuel (joinpath dest_dir (new_name folder_name (name child))) in
  copy2 child out_path ;;
  set_fs_times out_path dt ;;
  (if write_exif then
     let* updated := update_exif_datetime rt out_path dt in
     if negb updated then ret tt else ret tt
   else ret tt) ;;
  ret (add_copied c).

(** One turn of the inner loop. *)
Definition process_child (rt : Runtime) (fuel : nat) (dest_dir : path)
    (folder_name : pystr) (dt : datetime) (write_exif : bool)
    (child : path) (c : counters) : M counters :=
  let* fs := get_files in
  if negb (is_file fs child) then ret c
  else if negb (is_target rt (name child)) then ret c
  else transfer rt fuel dest_dir folder_name dt write_exif child c.

Fixpoint for_children (rt : Runtime) (fuel : nat) (dest_dir : path)
    (folder_name : pystr) (dt : datetime) (write_exif : bool)
    (children : list path) (c : counters) : M counters :=
  match children with
  | [] => ret c
  | child :: rest =>
      let* c' := process_child rt fuel dest_dir folder_name dt write_exif child c in
      for_children rt fuel dest_dir folder_name dt write_exif rest c'
  end.

(** [try: dt = parse_folder_datetime(...) except ValueError: ...] *)
Definition try_parse (rt : Runtime) (folder_name : pystr) (use_utc : bool)
    : M (option datetime) :=
  fun w =>
    match parse_folder_datetime rt folder_name use_utc w with
    | (Ok dt, w') => (Ok (Some dt), w')
    | (Raise (Uncaught ValueError), w') => (Ok None, w')
    | (Raise e, w') => (Raise e, w')
    | (OutOfFuel, w') => (OutOfFuel, w')
    end.

(** One turn of the outer loop. *)
Definition process_entry (rt : Runtime) (fuel : nat) (dest_dir : path)
    (use_utc write_exif : bool) (entry : path) (c : counters) : M counters :=
  let* fs := get_files in
  if negb (is_dir fs entry) then ret c
  else
    let folder_name := name entry in
    match FOLDER_RE_match rt folder_name with
    | None => ret (add_skipped c)
    | Some _ =>
        let* parsed := try_parse rt folder_name use_utc in
        match parsed with
        | None => ret (add_skipped c)
        | Some dt =>
            let* children := iterdir entry in
            for_children rt fuel dest_dir folder_name dt write_exif children c
        end
    end.

Fixpoint for_entries (rt : Runtime) (fuel : nat) (dest_dir : path)
    (use_utc write_exif : bool) (entries : list path) (c : counters) : M counters :=
  match entries with
  | [] => ret c
  | entry :: rest =>
      let* c' := process_entry rt fuel dest_dir use_utc write_exif entry c in
      for_entries rt fuel dest_dir use_utc write_exif rest c'
  end.

(** Order of [str] and of [Path]: lexicographic, by code point and by
    component. *)
Fixpoint str_ltb (a b : pystr) : bool :=
  match a, b with
  | _, [] => false
  | [], _ :: _ => true
  | x :: a', y :: b' => (x <? y)%N || ((x =? y)%N && str_ltb a' b')
  end.

Fixpoint path_ltb (p q : path) : bool :=
  match p, q with
  | _, [] => false
  | [], _ :: _ => true
  | x :: p', y :: q' =>
      str_ltb x y || (bool_decide (x = y) && path_ltb p' q')
  end.

Fixpoint insort (x : path) (l : list path) : list path :=
  match l with
  | [] => [x]
  | y :: l' => if path_ltb x y then x :: l else y :: insort x l'
  end.

(** [sorted(paths)] *)
Definition sorted (l : list path) : list path :=
  fold_left (fun acc x => insort x acc) l [].

Definition exit_message (source_dir : path) : pystr :=
  str_of "Source directory does not exist or is not a directory: " ++ path_str source_dir.

Definition done_line (c : counters) : pystr :=
  str_of "Done. Copied: " ++ str_of (pretty (copied c)) ++
  str_of ", Skipped folders (non-matching pattern): " ++ str_of (pretty (skipped c)).

Definition output_line (dest_dir : path) : pystr :=
  str_of "Output folder: " ++ path_str dest_dir.

Definition main (rt : Runtime) (fuel : nat) (source_dir dest_dir : path)
    (use_utc write_exif : bool) : M unit :=
  mkdir_parents dest_dir ;;
  let* fs := get_files in
  if negb (is_dir fs source_dir) then
    fun w => (Raise (SystemExit (exit_message source_dir)), w)
  else
    let* entries := iterdir source_dir in
    let* c := for_entries rt fuel dest_dir use_utc write_exif (sorted entries)
                (mkCounters 0 0) in
    print (done_line c) ;;
    print (output_line dest_dir).

(** Exit status of the process: 0 on a normal return, 1 when an exception
    or [SystemExit] with a message reaches the top. *)
Definition exit_status {A} (r : result A) : option Z :=
  match r with
  | Ok _ => Some 0
  | Raise _ => Some 1
  | OutOfFuel => None
  end.

(** ** Protocols and predicates the statements use *)

(** [n] requests for [p] in a row; after each one a file is created at the
    path that was returned. *)
Fixpoint request_n (fuel n : nat) (fs : gmap path node) (p : path) (f : file)
    : option (list path) :=
  match n with
  | O => Some []
  | S n' =>
      match ensure_unique_path fuel fs p with
      | Some q =>
          match request_n fuel n' (<[q := NFile f]> fs) p f with
          | Some l => Some (q :: l)
          | None => None
          end
      | None => None
      end
  end.

(** The answers expected from a directory where none of the names is taken. *)
Definition expected_paths (n : nat) (p : path) : list path :=
  match n with
  | O => []
  | S m => p :: map (fun k : nat => candidate p (Z.of_nat k)) (seq 1 m)
  end.

(** Two folder names resolved one after the other, as the driver does for
    two accepted folders; the zones they were given. *)
Definition parse_both (rt : Runtime) (first second_ : pystr) (use_utc : bool)
    : M (option Z * option Z) :=
  let* d1 := parse_folder_datetime rt first use_utc in
  let* d2 := parse_folder_datetime rt second_ use_utc in
  ret (tzinfo d1, tzinfo d2).

(** The run was not ended by [raise SystemExit]. *)
Definition no_exit {A} (r : result A * world) : Prop :=
  match fst r with
  | Raise (SystemExit _) => False
  | _ => True
  end.

(** ** Runtimes and trees to run the program on *)

(** ASCII names only, a host one hour east of Greenwich, no [piexif]. *)
Definition ascii_runtime : Runtime :=
  mkRuntime (fun _ => None) (fun s => s) (fun _ => 3600) None.

(** A host whose zone offset moves from +1h to +2h after the first query. *)
Definition two_zone_runtime : Runtime :=
  mkRuntime (fun _ => None) (fun s => s)
            (fun k => match k with O => 3600 | S _ => 7200 end) None.

(** A [piexif] that finds no metadata block in any file, and one that
    accepts every file and appends the dumped block to its bytes. *)
Definition blind_piexif : Piexif :=
  mkPiexif (fun _ => inl (LibraryError 1)) (fun _ => inl (LibraryError 2))
           (fun _ _ => inl (LibraryError 3)).

Definition plain_piexif : Piexif :=
  mkPiexif (fun _ => inr ∅)
           (fun d => inr (match d !! "Exif" with
                          | Some i => match i !! ExifIFD_DateTimeOriginal with
                                      | Some (EBytes b) => b
                                      | _ => []
                                      end
                          | None => []
                          end))
           (fun b f => inr (mkFile (content f ++ b) (st_mode f) (st_atime f) (st_mtime f))).

Definition blind_runtime : Runtime :=
  mkRuntime (fun _ => None) (fun s => s) (fun _ => 0) (Some blind_piexif).

Definition plain_runtime : Runtime :=
  mkRuntime (fun _ => None) (fun s => s) (fun _ => 0) (Some plain_piexif).

Definition jpg (bytes : list N) : node := NFile (mkFile bytes 420 0 0).

Definition accepted_folder : pystr := str_of "2022-11-07-15-09-47".
Definition later_folder : pystr := str_of "2022-11-07-15-09-48".
Definition folder_instant : datetime := mkDatetime 2022 11 7 15 9 47 (Some 0).
Definition out_dir : path := [str_of "out"].

(** The source of the end-to-end scenario: an accepted folder with
    [primary.jpg] and [notes.txt], and a folder [badname]. *)
Definition sample_fs : gmap path node :=
  list_to_map
    [ ([], NDir);
      ([str_of "src"], NDir);
      ([str_of "src"; accepted_folder], NDir);
      ([str_of "src"; accepted_folder; str_of "primary.jpg"], jpg [1; 2; 3]%N);
      ([str_of "src"; accepted_folder; str_of "notes.txt"], jpg [4]%N);
      ([str_of "src"; str_of "badname"], NDir);
      ([str_of "src"; str_of "badname"; str_of "primary.jpg"], jpg [5]%N) ].

Definition sample_world : world := mkWorld sample_fs 0 [].
Definition badname_entry : path := [str_of "src"; str_of "badname"].

(** An accepted folder with an upper-case target and a file outside the
    target set, next to an empty destination directory. *)
Definition upper_child : path := [str_of "src"; accepted_folder; str_of "MERGED.JPG"].
Definition thumb_child : path := [str_of "src"; accepted_folder; str_of "thumbnail.png"].

Definition upper_fs : gmap path node :=
  list_to_map
    [ ([], NDir);
      ([str_of "src"], NDir);
      ([str_of "src"; accepted_folder], NDir);
      (upper_child, jpg [1; 2; 3]%N);
      (thumb_child, jpg [4]%N);
      (out_dir, NDir) ].

Definition upper_world : world := mkWorld upper_fs 0 [].

(** A source with two accepted folders. *)
Definition two_folder_world : world :=
  mkWorld
    (list_to_map
       [ ([], NDir);
         ([str_of "src"], NDir);
         ([str_of "src"; accepted_folder], NDir);
         ([str_of "src"; accepted_folder; str_of "primary.jpg"], jpg [1]%N);
         ([str_of "src"; later_folder], NDir);
         ([str_of "src"; later_folder; str_of "primary.jpg"], jpg [2]%N) ])
    0 [].

(** A tree with nothing but its root, and one whose only other entry is a
    regular file [/taken]. *)
Definition bare_world : world := mkWorld {[ [] := NDir ]} 0 [].

Definition taken_world : world :=
  mkWorld (<[ [str_of "taken"] := jpg [7%N] ]> {[ [] := NDir ]}) 0 [].

Definition missing_src : path := [str_of "src"].
Definition out_below_src : path := [str_of "src"; str_of "out"].
Definition nested_dest : path := [str_of "a"; str_of "b"].

(** A destination where [a.jpg] and [a-1.jpg] are taken, and an empty one. *)
Definition wanted : path := [str_of "out"; str_of "a.jpg"].

Definition crowded_fs : gmap path node :=
  list_to_map
    [ ([], NDir);
      ([str_of "out"], NDir);
      ([str_of "out"; str_of "a.jpg"], jpg [1]%N);
      ([str_of "out"; str_of "a-1.jpg"], jpg [2]%N) ].

Definition empty_out_fs : gmap path node :=
  list_to_map [ ([], NDir); ([str_of "out"], NDir) ].

(** ** Notions the further properties are stated with *)


(** The two tests the driver makes on a folder name: the pattern, then the
    date. *)
Definition accepts (rt : Runtime) (nm : pystr) : bool :=
  match FOLDER_RE_match rt nm with
  | Some gs =>
      match map (int_of rt) gs with
      | [y; mo; d; h; mi; s] => valid_fields y mo d h mi s
      | _ => false
      end
  | None => false
  end.

(** The entries that are directories with a name the driver rejects, and
    those with a name it accepts. *)
Definition rejected_dirs (rt : Runtime) (fs : gmap path node) (entries : list path) : list path :=
  List.filter (fun e => is_dir fs e && negb (accepts rt (name e))) entries.

Definition accepted_dirs (rt : Runtime) (fs : gmap path node) (entries : list path) : list path :=
  List.filter (fun e => is_dir fs e && accepts rt (name e)) entries.

(** The same runtime on a host with another zone. *)
Definition with_zone (rt : Runtime) (zone : nat -> Z) : Runtime :=
  mkRuntime (unicode_decimal rt) (unicode_lower rt) zone (piexif rt).

(** From [w] to [w'] nothing that existed was changed or removed, no
    directory appeared, and nothing was printed. *)
Definition only_adds_files (w w' : world) : Prop :=
  files w ⊆ files w' /\
  (forall q, is_dir (files w') q = is_dir (files w) q) /\
  stdout w' = stdout w.

(** How many paths the tree gained from [w] to [w']. *)
Definition gained (w w' : world) : Z :=
  Z.of_nat (size (files w')) - Z.of_nat (size (files w)).

(** The scenario once its destination has been made, and its entries. *)
Definition ready_world : world := mkWorld (<[out_dir := NDir]> sample_fs) 0 [].

Definition sample_entries : list path :=
  [[str_of "src"; accepted_folder]; badname_entry].

(** * Properties *)

(** ** The folder-name parser *)

Lemma digits_app rt n g r :
  length g = n -> forallb (is_decimal rt) g = true ->
  digits rt n (g ++ r) = Some (g, r).
Proof.
  revert n; induction g as [|c g IH]; intros n Hn Hd; simpl in *; subst n.
  - reflexivity.
  - apply andb_prop in Hd as [Hc Hg]. simpl. rewrite Hc, (IH _ eq_refl Hg).
    reflexivity.
Qed.

(** What a successful [\d{n}] tells about the string it read. *)
Lemma digits_inv rt n s g r :
  digits rt n s = Some (g, r) ->
  s = g ++ r /\ length g = n /\ forallb (is_decimal rt) g = true.
Proof.
  revert s g r; induction n as [|n IH]; intros s g r H; simpl in H.
  - injection H as <- <-. auto.
  - destruct s as [|c s]; [discriminate|].
    destruct (is_decimal rt c) eqn:Hc; [|discriminate].
    destruct (digits rt n s) as [[g' r']|] eqn:Hd; [|discriminate].
    injection H as <- <-. destruct (IH _ _ _ Hd) as (-> & <- & Hg).
    simpl. rewrite Hc, Hg. auto.
Qed.

Lemma hyphen_inv s r : hyphen s = Some r -> s = 45%N :: r.
Proof.
  destruct s as [|c s]; simpl; [discriminate|].
  destruct (N.eqb_spec c 45); [|discriminate]. congruence.
Qed.

Lemma hyphen_cons r : hyphen (45%N :: r) = Some r.
Proof. reflexivity. Qed.

(** The pattern accepts six groups of 4, 2, 2, 2, 2 and 2 decimal digits
    joined by hyphens, followed by nothing or by one final newline. *)
Lemma FOLDER_RE_match_complete rt g1 g2 g3 g4 g5 g6 tl :
  length g1 = 4%nat -> length g2 = 2%nat -> length g3 = 2%nat ->
  length g4 = 2%nat -> length g5 = 2%nat -> length g6 = 2%nat ->
  forallb (is_decimal rt) (g1 ++ g2 ++ g3 ++ g4 ++ g5 ++ g6) = true ->
  at_end tl = true ->
  FOLDER_RE_match rt
    (g1 ++ 45%N :: g2 ++ 45%N :: g3 ++ 45%N :: g4 ++ 45%N :: g5 ++ 45%N :: g6 ++ tl)
  = Some [g1; g2; g3; g4; g5; g6].
Proof.
  intros L1 L2 L3 L4 L5 L6 Hd Htl.
  rewrite !forallb_app in Hd.
  repeat (apply andb_prop in Hd as [? Hd]).
  unfold FOLDER_RE_match.
  repeat (rewrite digits_app by assumption; cbn [mbind option_bind];
          rewrite ?hyphen_cons; cbn [mbind option_bind]).
  rewrite Htl. reflexivity.
Qed.

Lemma FOLDER_RE_match_sound rt s gs :
  FOLDER_RE_match rt s = Some gs ->
  exists g1 g2 g3 g4 g5 g6 tl,
    gs = [g1; g2; g3; g4; g5; g6] /\
    s = g1 ++ 45%N :: g2 ++ 45%N :: g3 ++ 45%N :: g4 ++ 45%N :: g5 ++ 45%N :: g6 ++ tl /\
    at_end tl = true /\
    length g1 = 4%nat /\ length g2 = 2%nat /\ length g3 = 2%nat /\
    length g4 = 2%nat /\ length g5 = 2%nat /\ length g6 = 2%nat /\
    forallb (is_decimal rt) (g1 ++ g2 ++ g3 ++ g4 ++ g5 ++ g6) = true.
Proof.
  unfold FOLDER_RE_match. intros H.
  repeat match type of H with
  | context [digits rt ?n ?x] =>
      let E := fresh "E" in
      destruct (digits rt n x) as [[? ?]|] eqn:E;
      cbn [mbind option_bind] in H; [|discriminate];
      apply digits_inv in E as (-> & ? & ?)
  | context [hyphen ?x] =>
      let E := fresh "E" in
      destruct (hyphen x) as [?|] eqn:E;
      cbn [mbind option_bind] in H; [|discriminate];
      apply hyphen_inv in E as ->
  end.
  destruct (at_end _) eqn:Htl; [|discriminate]. injection H as <-.
  do 7 eexists. split; [reflexivity|]. split; [reflexivity|].
  rewrite !forallb_app.
  repeat match goal with H : forallb _ _ = true |- _ => rewrite H; clear H end.
  auto 12.
Qed.

(** A folder name with a final newline is accepted like the name without
    it: [$] matches before a newline that ends the string. *)
Example FOLDER_RE_trailing_newline rt :
  FOLDER_RE_match rt (str_of "2022-11-07-15-09-47" ++ [10%N])
  = FOLDER_RE_match rt (str_of "2022-11-07-15-09-47").
Proof. reflexivity. Qed.

Lemma parse_no_match rt nm use_utc w :
  FOLDER_RE_match rt nm = None ->
  parse_folder_datetime rt nm use_utc w = (Raise (Uncaught ValueError), w).
Proof. intros H. unfold parse_folder_datetime. rewrite H. reflexivity. Qed.

Lemma parse_invalid rt nm g1 g2 g3 g4 g5 g6 use_utc w :
  FOLDER_RE_match rt nm = Some [g1; g2; g3; g4; g5; g6] ->
  valid_fields (int_of rt g1) (int_of rt g2) (int_of rt g3)
               (int_of rt g4) (int_of rt g5) (int_of rt g6) = false ->
  parse_folder_datetime rt nm use_utc w = (Raise (Uncaught ValueError), w).
Proof.
  intros H Hv. unfold parse_folder_datetime, datetime_new. rewrite H. simpl.
  rewrite Hv. reflexivity.
Qed.

Lemma parse_valid rt nm g1 g2 g3 g4 g5 g6 use_utc w :
  FOLDER_RE_match rt nm = Some [g1; g2; g3; g4; g5; g6] ->
  valid_fields (int_of rt g1) (int_of rt g2) (int_of rt g3)
               (int_of rt g4) (int_of rt g5) (int_of rt g6) = true ->
  parse_folder_datetime rt nm use_utc w =
    if use_utc then
      (Ok (mkDatetime (int_of rt g1) (int_of rt g2) (int_of rt g3)
             (int_of rt g4) (int_of rt g5) (int_of rt g6) (Some utc)), w)
    else
      (Ok (mkDatetime (int_of rt g1) (int_of rt g2) (int_of rt g3)
             (int_of rt g4) (int_of rt g5) (int_of rt g6)
             (Some (utcoffset_at rt (tz_reads w)))),
       mkWorld (files w) (S (tz_reads w)) (stdout w)).
Proof.
  intros H Hv. unfold parse_folder_datetime, datetime_new. rewrite H. simpl.
  rewrite Hv. destruct use_utc; reflexivity.
Qed.

(** C2. A name made of six groups of 4, 2, 2, 2, 2 and 2 decimal digits
    joined by hyphens, whose values form a valid date and time, is parsed
    into exactly these six values, in the order year, month, day, hour,
    minute, second; with the UTC flag the result is the datetime built
    directly from them, with the UTC zone attached. *)
Theorem C2_parse_utc rt g1 g2 g3 g4 g5 g6 w :
  length g1 = 4%nat -> length g2 = 2%nat -> length g3 = 2%nat ->
  length g4 = 2%nat -> length g5 = 2%nat -> length g6 = 2%nat ->
  forallb (is_decimal rt) (g1 ++ g2 ++ g3 ++ g4 ++ g5 ++ g6) = true ->
  valid_fields (int_of rt g1) (int_of rt g2) (int_of rt g3)
               (int_of rt g4) (int_of rt g5) (int_of rt g6) = true ->
  exists naive,
    datetime_new (int_of rt g1) (int_of rt g2) (int_of rt g3)
                 (int_of rt g4) (int_of rt g5) (int_of rt g6) = inr naive /\
    parse_folder_datetime rt
      (g1 ++ 45%N :: g2 ++ 45%N :: g3 ++ 45%N :: g4 ++ 45%N :: g5 ++ 45%N :: g6)
      true w
    = (Ok (replace_tzinfo naive utc), w) /\
    replace_tzinfo naive utc =
      mkDatetime (int_of rt g1) (int_of rt g2) (int_of rt g3)
                 (int_of rt g4) (int_of rt g5) (int_of rt g6) (Some 0).
Proof.
  intros L1 L2 L3 L4 L5 L6 Hd Hv.
  eexists. split; [unfold datetime_new; rewrite Hv; reflexivity|].
  split; [|reflexivity].
  rewrite <- (app_nil_r g6) at 1.
  erewrite parse_valid; [reflexivity| |exact Hv].
  apply FOLDER_RE_match_complete; auto.
Qed.

Lemma C2_parse_utc_witness :
  exists naive,
    datetime_new 2022 11 7 15 9 47 = inr naive /\
    parse_folder_datetime ascii_runtime (str_of "2022-11-07-15-09-47") true sample_world
    = (Ok (replace_tzinfo naive utc), sample_world) /\
    replace_tzinfo naive utc = mkDatetime 2022 11 7 15 9 47 (Some 0).
Proof.
  exact (C2_parse_utc ascii_runtime (str_of "2022") (str_of "11") (str_of "07")
           (str_of "15") (str_of "09") (str_of "47") sample_world
           eq_refl eq_refl eq_refl eq_refl eq_refl eq_refl eq_refl eq_refl).
Defined.

(** ** The driver loop on folders it rejects *)

(** C1. An entry that is a directory and whose name the pattern rejects, or
    whose name matches but spells an impossible date, adds exactly one to
    [skipped], leaves [copied] and the world alone, and the loop goes on
    with the entries that follow. *)
Theorem C1_bad_folder_skipped rt fuel dest_dir use_utc write_exif entry rest c w :
  is_dir (files w) entry = true ->
  (FOLDER_RE_match rt (name entry) = None \/
   exists g1 g2 g3 g4 g5 g6,
     FOLDER_RE_match rt (name entry) = Some [g1; g2; g3; g4; g5; g6] /\
     valid_fields (int_of rt g1) (int_of rt g2) (int_of rt g3)
                  (int_of rt g4) (int_of rt g5) (int_of rt g6) = false) ->
  process_entry rt fuel dest_dir use_utc write_exif entry c w
    = (Ok (mkCounters (copied c) (skipped c + 1)), w) /\
  for_entries rt fuel dest_dir use_utc write_exif (entry :: rest) c w
    = for_entries rt fuel dest_dir use_utc write_exif rest
        (mkCounters (copied c) (skipped c + 1)) w.
Proof.
  intros Hdir Hbad.
  assert (Hstep : process_entry rt fuel dest_dir use_utc write_exif entry c w
                  = (Ok (mkCounters (copied c) (skipped c + 1)), w)).
  { unfold process_entry, bind, get_files. rewrite Hdir. simpl.
    destruct Hbad as [Hno | (g1 & g2 & g3 & g4 & g5 & g6 & Hm & Hv)].
    - rewrite Hno. reflexivity.
    - rewrite Hm. unfold try_parse.
      rewrite (parse_invalid _ _ _ _ _ _ _ _ _ _ Hm Hv). reflexivity. }
  split; [exact Hstep|].
  simpl. unfold bind at 1. rewrite Hstep. reflexivity.
Qed.

Lemma C1_bad_folder_skipped_witness :
  process_entry ascii_runtime 10 [str_of "out"] false false badname_entry
    (mkCounters 0 0) sample_world
    = (Ok (mkCounters 0 1), sample_world) /\
  for_entries ascii_runtime 10 [str_of "out"] false false [badname_entry]
    (mkCounters 0 0) sample_world
    = (Ok (mkCounters 0 1), sample_world).
Proof.
  apply (C1_bad_folder_skipped ascii_runtime 10 [str_of "out"] false false
           badname_entry [] (mkCounters 0 0) sample_world).
  - vm_compute. reflexivity.
  - left. vm_compute. reflexivity.
Defined.

(** ** The collision-safe path allocator *)

Lemma str_of_inj s t : str_of s = str_of t -> s = t.
Proof.
  revert t; induction s as [|a s IH]; intros [|b t] H; simpl in H;
    try discriminate; [reflexivity|].
  injection H as Hab Hst. f_equal; [|auto].
  rewrite <- (ascii_N_embedding a), <- (ascii_N_embedding b). congruence.
Qed.

Lemma stem_suffix p : stem p ++ suffix p = name p.
Proof.
  unfold stem, suffix. destruct (has_suffix (name p)).
  - apply take_drop.
  - apply app_nil_r.
Qed.

Lemma candidate_name p i :
  candidate p i = parent p ++ [stem p ++ str_of "-" ++ str_of (pretty i) ++ suffix p].
Proof. reflexivity. Qed.

Lemma candidate_inj p i j : candidate p i = candidate p j -> i = j.
Proof.
  unfold candidate, joinpath. intros H.
  apply app_inj_tail in H as [_ H].
  apply app_inv_head in H. apply app_inv_head in H.
  apply app_inv_tail in H. apply str_of_inj in H.
  exact (pretty_Z_inj _ _ H).
Qed.

Lemma name_last p : name p = List.last p [].
Proof.
  unfold name. induction p as [|x [|y p] IH]; try reflexivity.
  rewrite last_cons_cons. exact IH.
Qed.

Lemma candidate_not_self p i : candidate p i <> p.
Proof.
  unfold candidate, joinpath, parent. intros H.
  destruct (decide (p = [])) as [->|Hne]; [discriminate|].
  pose proof (eq_trans H (app_removelast_last [] Hne)) as H'.
  apply app_inj_tail in H' as [_ H'].
  rewrite <- name_last, <- stem_suffix in H'.
  apply (f_equal length) in H'. rewrite !length_app in H'. simpl in H'. lia.
Qed.

Lemma path_exists_dom (fs : gmap path node) q :
  path_exists fs q = true <-> q ∈ dom fs.
Proof.
  unfold path_exists. rewrite elem_of_dom.
  destruct (fs !! q) eqn:E.
  - split; [eauto | reflexivity].
  - split; [discriminate | intros [? ?]; discriminate].
Qed.

Lemma path_exists_insert (fs : gmap path node) q n q' :
  path_exists (<[q := n]> fs) q' = if decide (q = q') then true else path_exists fs q'.
Proof.
  unfold path_exists. rewrite lookup_insert. destruct (decide (q = q')); reflexivity.
Qed.

(** Among the first [S (size fs)] candidates from [i] on, one is free:
    they are pairwise distinct and [fs] has only [size fs] paths. *)
Lemma first_free (fs : gmap path node) p i :
  exists k : nat,
    (k <= size fs)%nat /\
    path_exists fs (candidate p (i + Z.of_nat k)) = false /\
    forall j : nat, (j < k)%nat ->
      path_exists fs (candidate p (i + Z.of_nat j)) = true.
Proof.
  assert (Hscan : forall n : nat,
    (exists k : nat, (k < n)%nat /\
       path_exists fs (candidate p (i + Z.of_nat k)) = false /\
       forall j : nat, (j < k)%nat ->
         path_exists fs (candidate p (i + Z.of_nat j)) = true) \/
    (forall j : nat, (j < n)%nat ->
       path_exists fs (candidate p (i + Z.of_nat j)) = true)).
  { induction n as [|n [IH | IH]].
    - right. intros j Hj. lia.
    - left. destruct IH as (k & Hk & Hrest). exists k. split; [lia | exact Hrest].
    - destruct (path_exists fs (candidate p (i + Z.of_nat n))) eqn:Hn.
      + right. intros j Hj. destruct (decide (j = n)) as [->|]; [exact Hn|].
        apply IH. lia.
      + left. exists n. split; [lia|]. split; [exact Hn | exact IH]. }
  destruct (Hscan (S (size fs))) as [(k & Hk & Hrest) | Hall].
  { exists k. split; [lia | exact Hrest]. }
  exfalso.
  set (l := (fun j : nat => candidate p (i + Z.of_nat j)) <$> seq 0 (S (size fs))).
  assert (Hnd : NoDup l).
  { apply NoDup_fmap_2; [|apply NoDup_seq].
    intros a b Hab. apply candidate_inj in Hab. lia. }
  assert (Hsub : (list_to_set l : gset path) ⊆ dom fs).
  { intros q Hq. apply elem_of_list_to_set in Hq.
    apply list_elem_of_fmap in Hq as (j & -> & Hj).
    apply elem_of_seq in Hj. apply path_exists_dom, Hall. lia. }
  apply subseteq_size in Hsub.
  rewrite size_list_to_set, size_dom in Hsub by exact Hnd.
  unfold l in Hsub. rewrite length_fmap, length_seq in Hsub. lia.
Qed.

Lemma probe_finds (fuel : nat) (fs : gmap path node) p i (k : nat) :
  (forall j : nat, (j < k)%nat ->
     path_exists fs (candidate p (i + Z.of_nat j)) = true) ->
  path_exists fs (candidate p (i + Z.of_nat k)) = false ->
  (k < fuel)%nat ->
  probe fuel fs p i = Some (candidate p (i + Z.of_nat k)).
Proof.
  revert i fuel; induction k as [|k IH]; intros i fuel Hocc Hfree Hfuel;
    (destruct fuel as [|fuel]; [lia|]); simpl.
  - rewrite Z.add_0_r in Hfree. rewrite Hfree. simpl. f_equal. f_equal. lia.
  - pose proof (Hocc 0%nat ltac:(lia)) as H0. rewrite Z.add_0_r in H0.
    rewrite H0. simpl.
    replace (i + Z.of_nat (S k)) with ((i + 1) + Z.of_nat k) in * by lia.
    apply IH; [|exact Hfree|lia].
    intros j Hj. replace (i + 1 + Z.of_nat j) with (i + Z.of_nat (S j)) by lia.
    apply Hocc. lia.
Qed.

Lemma probe_short (fuel : nat) (fs : gmap path node) p i :
  (forall j : nat, (j < fuel)%nat ->
     path_exists fs (candidate p (i + Z.of_nat j)) = true) ->
  probe fuel fs p i = None.
Proof.
  revert i; induction fuel as [|fuel IH]; intros i Hocc; simpl; [reflexivity|].
  pose proof (Hocc 0%nat ltac:(lia)) as H0. rewrite Z.add_0_r in H0.
  rewrite H0. simpl. apply IH. intros j Hj.
  replace (i + 1 + Z.of_nat j) with (i + Z.of_nat (S j)) by lia.
  apply Hocc. lia.
Qed.

Lemma probe_free (fuel : nat) (fs : gmap path node) p i q :
  probe fuel fs p i = Some q -> path_exists fs q = false.
Proof.
  revert i; induction fuel as [|fuel IH]; intros i; simpl; [discriminate|].
  destruct (path_exists fs (candidate p i)) eqn:E; simpl.
  - apply IH.
  - intros [= <-]. exact E.
Qed.

Lemma ensure_unique_path_free (fuel : nat) (fs : gmap path node) p q :
  ensure_unique_path fuel fs p = Some q -> path_exists fs q = false.
Proof.
  unfold ensure_unique_path. destruct (path_exists fs p) eqn:E; simpl.
  - apply probe_free.
  - intros [= <-]. exact E.
Qed.

(** C3. A free path is returned as it is.  An occupied one is replaced by
    [stem-i.ext] in the same directory, where [i >= 1] is the least index
    whose candidate is free: every smaller index was probed and found
    occupied.  Such an index exists among the first [size fs + 1]; the loop
    answers at its [i]-th turn, not before. *)
Theorem C3_ensure_unique_path (fs : gmap path node) (p : path) :
  (path_exists fs p = false /\
   forall fuel, ensure_unique_path fuel fs p = Some p) \/
  (path_exists fs p = true /\
   exists i : Z,
     1 <= i <= Z.of_nat (S (size fs)) /\
     candidate p i
       = parent p ++ [stem p ++ str_of "-" ++ str_of (pretty i) ++ suffix p] /\
     path_exists fs (candidate p i) = false /\
     (forall j, 1 <= j < i -> path_exists fs (candidate p j) = true) /\
     (forall fuel, (Z.to_nat i <= fuel)%nat ->
        ensure_unique_path fuel fs p = Some (candidate p i)) /\
     (forall fuel, (fuel < Z.to_nat i)%nat ->
        ensure_unique_path fuel fs p = None)).
Proof.
  unfold ensure_unique_path. destruct (path_exists fs p) eqn:E; simpl.
  - right. split; [reflexivity|].
    destruct (first_free fs p 1) as (k & Hk & Hfree & Hocc).
    exists (1 + Z.of_nat k). split; [lia|]. split; [reflexivity|].
    split; [exact Hfree|]. split.
    + intros j Hj. replace j with (1 + Z.of_nat (Z.to_nat (j - 1))) by lia.
      apply Hocc. lia.
    + split.
      * intros fuel Hfuel. apply probe_finds; [exact Hocc | exact Hfree | lia].
      * intros fuel Hfuel. apply probe_short. intros j Hj. apply Hocc. lia.
  - left. auto.
Qed.

Lemma request_n_free (fuel n : nat) (fs : gmap path node) p f l :
  request_n fuel n fs p f = Some l ->
  forall q, q ∈ l -> path_exists fs q = false.
Proof.
  revert fs l; induction n as [|n IH]; intros fs l; simpl.
  - intros [= <-] q Hq. inversion Hq.
  - destruct (ensure_unique_path fuel fs p) as [q0|] eqn:E; [|discriminate].
    destruct (request_n fuel n _ p f) as [l'|] eqn:E'; [|discriminate].
    intros [= <-] q Hq. apply elem_of_cons in Hq as [-> | Hq].
    + eapply ensure_unique_path_free, E.
    + pose proof (IH _ _ E' q Hq) as H. rewrite path_exists_insert in H.
      destruct (decide (q0 = q)); [discriminate | exact H].
Qed.

Lemma request_n_distinct (fuel n : nat) (fs : gmap path node) p f l :
  request_n fuel n fs p f = Some l -> length l = n /\ NoDup l.
Proof.
  revert fs l; induction n as [|n IH]; intros fs l; simpl.
  - intros [= <-]. split; [reflexivity | constructor].
  - destruct (ensure_unique_path fuel fs p) as [q0|] eqn:E; [|discriminate].
    destruct (request_n fuel n _ p f) as [l'|] eqn:E'; [|discriminate].
    intros [= <-]. destruct (IH _ _ E') as [Hlen Hnd].
    split; [simpl; congruence|]. constructor; [|exact Hnd].
    intros Hin. pose proof (request_n_free _ _ _ _ _ _ E' _ Hin) as H.
    rewrite path_exists_insert in H. destruct (decide (q0 = q0)); congruence.
Qed.

(** Once [p] and the candidates below [k] are taken, [m] more requests get
    the candidates [k], [k+1], ... in this order. *)
Lemma request_n_suffixed (fuel m k : nat) (fs : gmap path node) p f :
  (1 <= k)%nat -> (k + m <= S fuel)%nat ->
  path_exists fs p = true ->
  (forall j : nat, (1 <= j < k)%nat ->
     path_exists fs (candidate p (Z.of_nat j)) = true) ->
  (forall j : nat, (k <= j < k + m)%nat ->
     path_exists fs (candidate p (Z.of_nat j)) = false) ->
  request_n fuel m fs p f
    = Some (map (fun j : nat => candidate p (Z.of_nat j)) (seq k m)).
Proof.
  revert k fs; induction m as [|m IH]; intros k fs Hk Hfuel Hp Hocc Hfree; simpl.
  - reflexivity.
  - assert (E : ensure_unique_path fuel fs p = Some (candidate p (Z.of_nat k))).
    { unfold ensure_unique_path. rewrite Hp. simpl.
      replace (Z.of_nat k) with (1 + Z.of_nat (k - 1)) by lia.
      apply probe_finds.
      - intros j Hj. replace (1 + Z.of_nat j) with (Z.of_nat (S j)) by lia.
        apply Hocc. lia.
      - replace (1 + Z.of_nat (k - 1)) with (Z.of_nat k) by lia.
        apply Hfree. lia.
      - lia. }
    rewrite E.
    rewrite (IH (S k)); [reflexivity | lia | lia | | |].
    + rewrite path_exists_insert.
      destruct (decide _); [reflexivity | exact Hp].
    + intros j Hj. rewrite path_exists_insert.
      destruct (decide _) as [|Hne]; [reflexivity|]. apply Hocc.
      assert (j <> k) by (intros ->; apply Hne; reflexivity). lia.
    + intros j Hj. rewrite path_exists_insert.
      destruct (decide _) as [Heq|]; [|apply Hfree; lia].
      apply candidate_inj in Heq. lia.
Qed.

(** C7. [n] requests in a row for the same path, a file being created at
    each answer, always give [n] pairwise distinct paths.  From a directory
    where neither the path nor its first [n-1] candidates are taken, they
    are the path itself, then [stem-1.ext], ..., [stem-(n-1).ext]. *)
Theorem C7_repeated_requests (n : nat) (fs : gmap path node) (p : path) (f : file) :
  (forall fuel l, request_n fuel n fs p f = Some l -> length l = n /\ NoDup l) /\
  (path_exists fs p = false ->
   (forall j : nat, (1 <= j < n)%nat ->
      path_exists fs (candidate p (Z.of_nat j)) = false) ->
   forall fuel, (n <= S fuel)%nat ->
     request_n fuel n fs p f = Some (expected_paths n p) /\
     length (expected_paths n p) = n /\ NoDup (expected_paths n p)).
Proof.
  split; [intros fuel l; apply request_n_distinct|].
  intros Hp Hfree fuel Hfuel.
  assert (E : request_n fuel n fs p f = Some (expected_paths n p)).
  { destruct n as [|m]; [reflexivity|]. simpl.
    unfold ensure_unique_path. rewrite Hp. simpl.
    rewrite (request_n_suffixed fuel m 1); [reflexivity | lia | lia | | |].
    - rewrite path_exists_insert. destruct (decide _); congruence.
    - intros j Hj. lia.
    - intros j Hj. rewrite path_exists_insert.
      destruct (decide _) as [Heq|]; [|apply Hfree; lia].
      symmetry in Heq. exfalso. exact (candidate_not_self _ _ Heq). }
  split; [exact E|]. exact (request_n_distinct _ _ _ _ _ _ E).
Qed.

(** ** Start-up: the destination is created, then the source is examined *)

Lemma mkdir_from_keeps (target done rest : path) (fs fs' : gmap path node) q n :
  mkdir_from target done rest fs = inr fs' ->
  fs !! q = Some n -> fs' !! q = Some n.
Proof.
  revert done fs; induction rest as [|c rest IH]; intros done fs H Hq; simpl in H.
  - congruence.
  - destruct (fs !! joinpath done c) as [[| |]|] eqn:E.
    + destruct rest; discriminate.
    + eapply IH; eauto.
    + destruct rest; discriminate.
    + eapply IH; [exact H|]. rewrite lookup_insert_ne; [exact Hq|]. congruence.
Qed.

Lemma mkdir_from_makes (target done rest : path) (fs fs' : gmap path node) (k : nat) :
  mkdir_from target done rest fs = inr fs' ->
  (1 <= k <= length rest)%nat ->
  fs' !! (done ++ take k rest) = Some NDir.
Proof.
  revert done fs k; induction rest as [|c rest IH]; intros done fs k H Hk;
    simpl in *; [lia|].
  destruct k as [|k]; [lia|]. simpl.
  assert (Hstep : forall fs0 : gmap path node,
            mkdir_from target (joinpath done c) rest fs0 = inr fs' ->
            fs0 !! joinpath done c = Some NDir ->
            fs' !! (done ++ c :: take k rest) = Some NDir).
  { intros fs0 H0 Hc. destruct k as [|k].
    - rewrite take_0. eapply mkdir_from_keeps; eauto.
    - rewrite (cons_middle c), app_assoc. eapply IH; [exact H0|]. lia. }
  destruct (fs !! joinpath done c) as [[| |]|] eqn:E.
  - destruct rest; discriminate.
  - eapply Hstep; eauto.
  - destruct rest; discriminate.
  - eapply Hstep; [exact H|]. apply lookup_insert_eq.
Qed.

Lemma mkdir_from_elsewhere (target done rest : path) (fs fs' : gmap path node) q :
  mkdir_from target done rest fs = inr fs' ->
  (forall k : nat, q <> done ++ take k rest) ->
  fs' !! q = fs !! q.
Proof.
  revert done fs; induction rest as [|c rest IH]; intros done fs H Hq; simpl in H.
  - congruence.
  - assert (Hq' : forall k : nat, q <> joinpath done c ++ take k rest).
    { intros k. unfold joinpath. rewrite <- app_assoc. exact (Hq (S k)). }
    destruct (fs !! joinpath done c) as [[| |]|] eqn:E.
    + destruct rest; discriminate.
    + eapply IH; eauto.
    + destruct rest; discriminate.
    + rewrite (IH _ _ H Hq'). apply lookup_insert_ne.
      intros <-. apply (Hq 1%nat). simpl. rewrite take_0. reflexivity.
Qed.

Lemma main_mkdir_fails rt fuel source_dir dest_dir use_utc write_exif w err :
  mkdir_from dest_dir [] dest_dir (files w) = inl err ->
  main rt fuel source_dir dest_dir use_utc write_exif w = (Raise (Uncaught err), w).
Proof.
  intros H. unfold main, mkdir_parents, bind, get_files. rewrite H. reflexivity.
Qed.

Lemma main_source_invalid rt fuel source_dir dest_dir use_utc write_exif w fs' :
  mkdir_from dest_dir [] dest_dir (files w) = inr fs' ->
  is_dir fs' source_dir = false ->
  main rt fuel source_dir dest_dir use_utc write_exif w
    = (Raise (SystemExit (exit_message source_dir)), set_files fs' w).
Proof.
  intros H Hs. unfold main, mkdir_parents, bind, get_files. rewrite H. simpl.
  rewrite Hs. reflexivity.
Qed.

Lemma main_source_valid rt fuel source_dir dest_dir use_utc write_exif w fs' :
  mkdir_from dest_dir [] dest_dir (files w) = inr fs' ->
  is_dir fs' source_dir = true ->
  main rt fuel source_dir dest_dir use_utc write_exif w
    = (let* entries := iterdir source_dir in
       let* c := for_entries rt fuel dest_dir use_utc write_exif (sorted entries)
                   (mkCounters 0 0) in
       print (done_line c) ;;
       print (output_line dest_dir)) (set_files fs' w).
Proof.
  intros H Hs. unfold main, mkdir_parents. unfold bind at 1 2 3 4. unfold get_files.
  rewrite H. simpl. rewrite Hs. reflexivity.
Qed.

(** Only the check of the source directory raises [SystemExit]. *)
Lemma no_exit_bind {A B} (m : M A) (k : A -> M B) w :
  no_exit (m w) -> (forall a w', no_exit (k a w')) -> no_exit (bind m k w).
Proof.
  unfold bind, no_exit. intros Hm Hk.
  destruct (m w) as [[a|e|] w'] eqn:E; simpl in *; [apply Hk | exact Hm | exact I].
Qed.

Lemma no_exit_raise {A} e w : no_exit (@raise A e w).
Proof. exact I. Qed.

Lemma no_exit_ret {A} (a : A) w : no_exit (ret a w).
Proof. exact I. Qed.

Lemma no_exit_lift {A} (r : exception + A) w : no_exit (lift r w).
Proof. destruct r; exact I. Qed.

Ltac no_exit_now :=
  first [ apply no_exit_ret | apply no_exit_raise | apply no_exit_lift | exact I ].

(** Split a [bind]: the first goal is the action, the second what follows
    it, with the value and the world it left named [x] and [w]. *)
Ltac no_exit_seq x w := apply no_exit_bind; [|intros x w].

Lemma no_exit_iterdir p w : no_exit (iterdir p w).
Proof.
  unfold iterdir. no_exit_seq fs w1; [exact I|].
  destruct (fs !! p) as [[| |]|]; no_exit_now.
Qed.

Lemma no_exit_copy2 src dst w : no_exit (copy2 src dst w).
Proof.
  unfold copy2. no_exit_seq fs w1; [exact I|].
  destruct (fs !! src) as [[f| |]|]; try no_exit_now.
  destruct (bool_decide _); [no_exit_now|].
  destruct (fs !! _) as [[| |]|]; try no_exit_now;
    destruct (is_dir _ _); no_exit_now.
Qed.

Lemma no_exit_set_fs_times p dt w : no_exit (set_fs_times p dt w).
Proof.
  unfold set_fs_times, utime. no_exit_seq fs w1; [exact I|].
  destruct (fs !! p) as [[| |]|]; no_exit_now.
Qed.

Lemma update_exif_datetime_returns rt p dt w :
  exists b w', update_exif_datetime rt p dt w = (Ok b, w').
Proof.
  unfold update_exif_datetime. destruct (piexif rt) as [px|]; [|unfold ret; eauto].
  destruct (files w !! p) as [[f| |]|]; eauto.
  destruct (exif_rewrite px dt f); eauto.
Qed.

Lemma no_exit_update_exif rt p dt w : no_exit (update_exif_datetime rt p dt w).
Proof.
  destruct (update_exif_datetime_returns rt p dt w) as (b & w' & E).
  unfold no_exit. rewrite E. exact I.
Qed.

Lemma no_exit_transfer rt fuel dest_dir folder_name dt write_exif child c w :
  no_exit (transfer rt fuel dest_dir folder_name dt write_exif child c w).
Proof.
  unfold transfer. no_exit_seq out_path w1.
  { unfold unique_path, no_exit. destruct (ensure_unique_path _ _ _); exact I. }
  no_exit_seq u2 w2; [apply no_exit_copy2|].
  no_exit_seq u3 w3; [apply no_exit_set_fs_times|].
  no_exit_seq u4 w4; [|no_exit_now].
  destruct write_exif; [|no_exit_now].
  no_exit_seq updated w4; [apply no_exit_update_exif|].
  destruct (negb _); no_exit_now.
Qed.

Lemma no_exit_process_child rt fuel dest_dir folder_name dt write_exif child c w :
  no_exit (process_child rt fuel dest_dir folder_name dt write_exif child c w).
Proof.
  unfold process_child. no_exit_seq fs w1; [exact I|].
  destruct (negb _); [no_exit_now|].
  destruct (negb _); [no_exit_now|]. apply no_exit_transfer.
Qed.

Lemma no_exit_for_children rt fuel dest_dir folder_name dt write_exif children c w :
  no_exit (for_children rt fuel dest_dir folder_name dt write_exif children c w).
Proof.
  revert c w; induction children as [|child rest IH]; intros c w; simpl.
  - exact I.
  - no_exit_seq c1 w1; [apply no_exit_process_child | apply IH].
Qed.

Lemma no_exit_parse rt nm use_utc w : no_exit (parse_folder_datetime rt nm use_utc w).
Proof.
  unfold parse_folder_datetime.
  destruct (FOLDER_RE_match rt nm) as [gs|]; [|exact I].
  destruct (map (int_of rt) gs) as [|y [|mo [|d [|h [|mi [|s [|? ?]]]]]]]; try exact I.
  no_exit_seq dt w1; [apply no_exit_lift|].
  destruct use_utc; [exact I|]. no_exit_seq tz w2; exact I.
Qed.

Lemma no_exit_process_entry rt fuel dest_dir use_utc write_exif entry c w :
  no_exit (process_entry rt fuel dest_dir use_utc write_exif entry c w).
Proof.
  unfold process_entry. no_exit_seq fs w1; [exact I|].
  destruct (negb _); [no_exit_now|].
  destruct (FOLDER_RE_match rt (name entry)); [|no_exit_now].
  no_exit_seq parsed w2.
  { pose proof (no_exit_parse rt (name entry) use_utc w1) as H.
    unfold try_parse, no_exit in *.
    destruct (parse_folder_datetime rt (name entry) use_utc w1) as [[?|[[]|]|] ?];
      simpl in *; auto. }
  destruct parsed; [|no_exit_now].
  no_exit_seq children w3; [apply no_exit_iterdir | apply no_exit_for_children].
Qed.

Lemma no_exit_for_entries rt fuel dest_dir use_utc write_exif entries c w :
  no_exit (for_entries rt fuel dest_dir use_utc write_exif entries c w).
Proof.
  revert c w; induction entries as [|entry rest IH]; intros c w; simpl.
  - exact I.
  - no_exit_seq c1 w1; [apply no_exit_process_entry | apply IH].
Qed.

(** C9. When a run ends with the [SystemExit] of the source check, the
    destination directory has already been made: in the world the run
    leaves, the destination and all its ancestors are directories, and
    nothing else was touched. *)
Theorem C9_dest_created_before_check rt fuel source_dir dest_dir use_utc write_exif
    w msg w' :
  is_dir (files w) [] = true ->
  main rt fuel source_dir dest_dir use_utc write_exif w = (Raise (SystemExit msg), w') ->
  (exists fs', mkdir_from dest_dir [] dest_dir (files w) = inr fs' /\
               w' = set_files fs' w) /\
  (forall k : nat, is_dir (files w') (take k dest_dir) = true) /\
  is_dir (files w') source_dir = false /\
  msg = exit_message source_dir.
Proof.
  intros Hroot Hrun.
  destruct (mkdir_from dest_dir [] dest_dir (files w)) as [err|fs'] eqn:Hmk.
  { rewrite (main_mkdir_fails _ _ _ _ _ _ _ _ Hmk) in Hrun. discriminate. }
  destruct (is_dir fs' source_dir) eqn:Hsrc.
  { exfalso. rewrite (main_source_valid _ _ _ _ _ _ _ _ Hmk Hsrc) in Hrun.
    match type of Hrun with ?run = _ => assert (Hne : no_exit run) end.
    { no_exit_seq entries w1; [apply no_exit_iterdir|].
      no_exit_seq c w2; [apply no_exit_for_entries|].
      no_exit_seq u3 w3; exact I. }
    rewrite Hrun in Hne. exact Hne. }
  rewrite (main_source_invalid _ _ _ _ _ _ _ _ Hmk Hsrc) in Hrun.
  injection Hrun as <- <-.
  split; [eauto|]. split; [|auto].
  assert (Hroot' : fs' !! [] = Some NDir).
  { unfold is_dir in Hroot.
    destruct (files w !! []) as [[| |]|] eqn:E; try discriminate.
    exact (mkdir_from_keeps _ _ _ _ _ _ _ Hmk E). }
  intros k. simpl. unfold is_dir.
  destruct (decide (take k dest_dir = [])) as [->|Hne]; [rewrite Hroot'; reflexivity|].
  assert (Hk : (1 <= k)%nat) by (destruct k; [rewrite take_0 in Hne; congruence | lia]).
  assert (Hlen : (1 <= length dest_dir)%nat)
    by (destruct dest_dir; [rewrite take_nil in Hne; congruence | simpl; lia]).
  destruct (decide (k <= length dest_dir)%nat).
  - pose proof (mkdir_from_makes _ [] _ _ _ k Hmk ltac:(lia)) as H.
    cbn [app] in H. rewrite H. reflexivity.
  - rewrite take_ge by lia.
    pose proof (mkdir_from_makes _ [] _ _ _ (length dest_dir) Hmk ltac:(lia)) as H.
    rewrite firstn_all in H. cbn [app] in H. rewrite H. reflexivity.
Qed.

Lemma C9_dest_created_before_check_witness :
  is_dir (files bare_world) nested_dest = false /\
  is_dir (files (snd (main ascii_runtime 10 missing_src nested_dest false false bare_world)))
         nested_dest = true /\
  is_dir (files (snd (main ascii_runtime 10 missing_src nested_dest false false bare_world)))
         [str_of "a"] = true.
Proof.
  split; [vm_compute; reflexivity|].
  assert (Hroot : is_dir (files bare_world) [] = true) by (vm_compute; reflexivity).
  assert (Hrun : main ascii_runtime 10 missing_src nested_dest false false bare_world
                 = (Raise (SystemExit (exit_message missing_src)),
                    snd (main ascii_runtime 10 missing_src nested_dest false false bare_world)))
    by (vm_compute; reflexivity).
  pose proof (C9_dest_created_before_check _ _ _ _ _ _ _ _ _ Hroot Hrun)
    as (_ & Hdirs & _).
  split; [exact (Hdirs 2%nat) | exact (Hdirs 1%nat)].
Defined.

(** C6, as the code has it.  When the source path is not a directory, the
    destination can be created, and the source is neither the destination
    nor one of its ancestors, the run ends at start-up with [SystemExit]
    carrying the message that names the source path: the exit status is 1,
    nothing is printed, no folder is examined, and the only change to the
    tree is the destination directory. *)
Theorem C6_invalid_source_exits rt fuel source_dir dest_dir use_utc write_exif w fs' :
  is_dir (files w) source_dir = false ->
  mkdir_from dest_dir [] dest_dir (files w) = inr fs' ->
  (forall k : nat, source_dir <> take k dest_dir) ->
  main rt fuel source_dir dest_dir use_utc write_exif w
    = (Raise (SystemExit (str_of "Source directory does not exist or is not a directory: "
                          ++ path_str source_dir)),
       mkWorld fs' (tz_reads w) (stdout w)) /\
  exit_status (fst (main rt fuel source_dir dest_dir use_utc write_exif w)) = Some 1 /\
  forall q, (forall k : nat, q <> take k dest_dir) -> fs' !! q = files w !! q.
Proof.
  intros Hsrc Hmk Hout.
  assert (Hsrc' : is_dir fs' source_dir = false).
  { unfold is_dir in *.
    rewrite (mkdir_from_elsewhere _ [] _ _ _ _ Hmk); [exact Hsrc | exact Hout]. }
  rewrite (main_source_invalid _ _ _ _ _ _ _ _ Hmk Hsrc').
  split; [reflexivity|]. split; [reflexivity|].
  intros q Hq. apply (mkdir_from_elsewhere _ [] _ _ _ _ Hmk). exact Hq.
Qed.

Lemma C6_invalid_source_exits_witness :
  main ascii_runtime 10 missing_src nested_dest false false bare_world
    = (Raise (SystemExit (str_of "Source directory does not exist or is not a directory: /src")),
       mkWorld (<[nested_dest := NDir]> (<[ [str_of "a"] := NDir ]> (files bare_world))) 0 []) /\
  exit_status (fst (main ascii_runtime 10 missing_src nested_dest false false bare_world))
    = Some 1.
Proof.
  assert (Hsrc : is_dir (files bare_world) missing_src = false) by (vm_compute; reflexivity).
  assert (Hmk : mkdir_from nested_dest [] nested_dest (files bare_world)
                = inr (<[nested_dest := NDir]> (<[ [str_of "a"] := NDir ]> (files bare_world))))
    by reflexivity.
  assert (Hout : forall k : nat, missing_src <> take k nested_dest).
  { intros [|[|[|k]]]; simpl; unfold missing_src; intros H; discriminate H. }
  pose proof (C6_invalid_source_exits ascii_runtime 10 _ _ false false _ _ Hsrc Hmk Hout)
    as (H1 & H2 & _).
  split; [exact H1 | exact H2].
Defined.

(** C6 as stated fails: the source path does not exist, the destination lies
    below it, and creating the destination creates the source; the run then
    ends normally, with exit status 0 and its counts printed. *)
Lemma C6_missing_source_not_reported :
  path_exists (files bare_world) missing_src = false /\
  fst (main ascii_runtime 10 missing_src out_below_src false false bare_world) = Ok tt /\
  exit_status (fst (main ascii_runtime 10 missing_src out_below_src false false bare_world))
    = Some 0 /\
  stdout (snd (main ascii_runtime 10 missing_src out_below_src false false bare_world))
    = [str_of "Done. Copied: 0, Skipped folders (non-matching pattern): 1";
       str_of "Output folder: /src/out"].
Proof. vm_compute. repeat split; reflexivity. Qed.

(** When the destination path is taken by a regular file, the run is ended
    by the [FileExistsError] of [mkdir], which names the destination; the
    source is never examined. *)
Example main_dest_is_a_file :
  main ascii_runtime 10 missing_src [str_of "taken"] false false taken_world
  = (Raise (Uncaught (FileExistsError [str_of "taken"])), taken_world).
Proof. vm_compute. reflexivity. Qed.

(** ** The metadata writer *)

Lemma update_exif_datetime_cases rt p dt w :
  update_exif_datetime rt p dt w = (Ok false, w) \/
  exists px f f',
    piexif rt = Some px /\ files w !! p = Some (NFile f) /\
    exif_rewrite px dt f = inr f' /\
    update_exif_datetime rt p dt w
      = (Ok true, set_files (<[p := NFile f']> (files w)) w).
Proof.
  unfold update_exif_datetime. destruct (piexif rt) as [px|]; [|left; reflexivity].
  destruct (files w !! p) as [[f| |]|] eqn:E; try (left; reflexivity).
  destruct (exif_rewrite px dt f) as [e|f'] eqn:R; [left; reflexivity|].
  right. exists px, f, f'. auto.
Qed.

Lemma exif_rewrite_load_fails px dt f e :
  piexif_load px f = inl e -> exif_rewrite px dt f = inl e.
Proof. intros H. unfold exif_rewrite. rewrite H. reflexivity. Qed.

(** With or without the metadata step, [transfer] ends the same way and
    counts the same. *)
Lemma transfer_outcome_without_exif rt fuel dest_dir folder_name dt child c w :
  fst (transfer rt fuel dest_dir folder_name dt true child c w)
  = fst (transfer rt fuel dest_dir folder_name dt false child c w).
Proof.
  unfold transfer, bind.
  destruct (unique_path fuel _ w) as [[out| |] w1]; try reflexivity.
  destruct (copy2 child out w1) as [[[]| |] w2]; try reflexivity.
  destruct (set_fs_times out dt w2) as [[[]| |] w3]; try reflexivity.
  destruct (update_exif_datetime_returns rt out dt w3) as (b & w4 & ->).
  destruct b; reflexivity.
Qed.

Lemma transfer_without_piexif rt fuel dest_dir folder_name dt child c w :
  piexif rt = None ->
  transfer rt fuel dest_dir folder_name dt true child c w
  = transfer rt fuel dest_dir folder_name dt false child c w.
Proof.
  intros Hno. unfold transfer, bind.
  destruct (unique_path fuel _ w) as [[out| |] w1]; try reflexivity.
  destruct (copy2 child out w1) as [[[]| |] w2]; try reflexivity.
  destruct (set_fs_times out dt w2) as [[[]| |] w3]; try reflexivity.
  unfold update_exif_datetime. rewrite Hno. reflexivity.
Qed.

(** C5. [update_exif_datetime] always returns a boolean, never an
    exception: [False], with the file untouched, when [piexif] cannot be
    imported, when the file has no metadata [piexif] can load, and when any
    other step of the rewriting raises.  Whatever it returns, the transfer
    of the file ends as it would without the metadata step, and the file is
    counted as copied all the same. *)
Theorem C5_exif_best_effort rt fuel dest_dir folder_name dt child c p w :
  (exists b w', update_exif_datetime rt p dt w = (Ok b, w') /\
                (b = false -> w' = w)) /\
  (piexif rt = None -> update_exif_datetime rt p dt w = (Ok false, w)) /\
  (forall px f e,
     piexif rt = Some px -> files w !! p = Some (NFile f) ->
     piexif_load px f = inl e ->
     update_exif_datetime rt p dt w = (Ok false, w)) /\
  (forall px f e,
     piexif rt = Some px -> files w !! p = Some (NFile f) ->
     exif_rewrite px dt f = inl e ->
     update_exif_datetime rt p dt w = (Ok false, w)) /\
  fst (transfer rt fuel dest_dir folder_name dt true child c w)
    = fst (transfer rt fuel dest_dir folder_name dt false child c w) /\
  (forall c' w', transfer rt fuel dest_dir folder_name dt true child c w = (Ok c', w') ->
                 c' = mkCounters (copied c + 1) (skipped c)).
Proof.
  split.
  { destruct (update_exif_datetime_cases rt p dt w)
      as [E | (px & f & f' & _ & _ & _ & E)]; rewrite E; eauto.
    do 2 eexists. split; [reflexivity | discriminate]. }
  split.
  { intros Hno. unfold update_exif_datetime. rewrite Hno. reflexivity. }
  split.
  { intros px f e Hpx Hf Hload. unfold update_exif_datetime.
    rewrite Hpx, Hf, (exif_rewrite_load_fails _ _ _ _ Hload). reflexivity. }
  split.
  { intros px f e Hpx Hf Hrw. unfold update_exif_datetime.
    rewrite Hpx, Hf, Hrw. reflexivity. }
  split; [apply transfer_outcome_without_exif|].
  intros c' w'. unfold transfer, bind.
  destruct (unique_path fuel _ w) as [[out| |] w1]; try discriminate.
  destruct (copy2 child out w1) as [[[]| |] w2]; try discriminate.
  destruct (set_fs_times out dt w2) as [[[]| |] w3]; try discriminate.
  destruct (update_exif_datetime_returns rt out dt w3) as (b & w4 & ->).
  destruct b; simpl; unfold ret; intros [= <- <-]; reflexivity.
Qed.

(** ** The transfer of one file *)

Lemma ensure_unique_path_total (fuel : nat) (fs : gmap path node) p :
  (size fs < fuel)%nat ->
  exists q, ensure_unique_path fuel fs p = Some q /\
            path_exists fs q = false /\ parent q = parent p.
Proof.
  intros Hfuel. unfold ensure_unique_path.
  destruct (path_exists fs p) eqn:E; simpl; [|eauto].
  destruct (first_free fs p 1) as (k & Hk & Hfree & Hocc).
  exists (candidate p (1 + Z.of_nat k)).
  split; [apply probe_finds; [exact Hocc | exact Hfree | lia]|].
  split; [exact Hfree|].
  unfold candidate, joinpath, parent. apply removelast_last.
Qed.

Lemma copy2_fresh src dst f w :
  files w !! src = Some (NFile f) ->
  files w !! dst = None ->
  is_dir (files w) (parent dst) = true ->
  copy2 src dst w = (Ok tt, set_files (<[dst := NFile f]> (files w)) w).
Proof.
  intros Hsrc Hdst Hpar.
  assert (Hd : is_dir (files w) dst = false) by (unfold is_dir; rewrite Hdst; reflexivity).
  unfold copy2, bind, get_files. rewrite Hd, Hsrc.
  rewrite bool_decide_eq_false_2 by (intros ->; congruence).
  rewrite Hdst, Hpar. reflexivity.
Qed.

Lemma set_fs_times_file p dt f w :
  files w !! p = Some (NFile f) ->
  set_fs_times p dt w
  = (Ok tt,
     set_files (<[p := NFile (mkFile (content f) (st_mode f) (timestamp dt) (timestamp dt))]>
                  (files w)) w).
Proof.
  intros Hp. unfold set_fs_times, utime, bind, get_files. rewrite Hp. reflexivity.
Qed.

Lemma probe_parent (fuel : nat) (fs : gmap path node) p i q :
  probe fuel fs p i = Some q -> parent q = parent p.
Proof.
  revert i; induction fuel as [|fuel IH]; intros i; simpl; [discriminate|].
  destruct (negb _); [|apply IH].
  intros [= <-]. unfold candidate, joinpath, parent. apply removelast_last.
Qed.

Lemma ensure_unique_path_parent (fuel : nat) (fs : gmap path node) p q :
  ensure_unique_path fuel fs p = Some q -> parent q = parent p.
Proof.
  unfold ensure_unique_path. destruct (negb _); [congruence | apply probe_parent].
Qed.

(** A regular file sent to an existing destination directory, once the
    allocator has answered [out]: the copy is made there, stamped with the
    instant of the folder, and counted. *)
Lemma transfer_at rt fuel dest_dir folder_name dt write_exif child c w f out :
  files w !! child = Some (NFile f) ->
  is_dir (files w) dest_dir = true ->
  ensure_unique_path fuel (files w)
    (joinpath dest_dir (new_name folder_name (name child))) = Some out ->
  exists w' f',
    transfer rt fuel dest_dir folder_name dt write_exif child c w
      = (Ok (add_copied c), w') /\
    path_exists (files w) out = false /\
    parent out = dest_dir /\
    files w' !! out = Some (NFile f') /\
    (write_exif = false ->
     f' = mkFile (content f) (st_mode f) (timestamp dt) (timestamp dt)) /\
    (forall q, q <> out -> files w' !! q = files w !! q) /\
    tz_reads w' = tz_reads w /\ stdout w' = stdout w.
Proof.
  intros Hchild Hdest Hout.
  pose proof (ensure_unique_path_free _ _ _ _ Hout) as Hfree.
  assert (Hparent : parent out = dest_dir).
  { rewrite (ensure_unique_path_parent _ _ _ _ Hout).
    unfold joinpath, parent. apply removelast_last. }
  assert (Hnone : files w !! out = None).
  { unfold path_exists in Hfree. destruct (files w !! out); [discriminate | reflexivity]. }
  set (stamped := mkFile (content f) (st_mode f) (timestamp dt) (timestamp dt)).
  set (w3 := set_files (<[out := NFile stamped]> (<[out := NFile f]> (files w))) w).
  assert (Hprefix : forall k : path -> M counters,
            (let* out_path := unique_path fuel
                                (joinpath dest_dir (new_name folder_name (name child))) in
             copy2 child out_path ;; set_fs_times out_path dt ;; k out_path) w
            = k out w3).
  { intros k. unfold bind at 1. unfold unique_path. rewrite Hout.
    unfold bind at 1. rewrite (copy2_fresh child out f w Hchild Hnone)
      by (rewrite Hparent; exact Hdest).
    unfold bind at 1.
    rewrite (set_fs_times_file out dt f); [reflexivity|].
    simpl. apply lookup_insert_eq. }
  assert (Hw3 : forall q, q <> out -> files w3 !! q = files w !! q).
  { intros q Hq. simpl. rewrite !lookup_insert_ne by congruence. reflexivity. }
  unfold transfer.
  rewrite (Hprefix (fun out_path =>
     (if write_exif
      then let* updated := update_exif_datetime rt out_path dt in
           if negb updated then ret tt else ret tt
      else ret tt) ;; ret (add_copied c))).
  destruct write_exif.
  - unfold bind.
    destruct (update_exif_datetime_cases rt out dt w3)
      as [E | (px & f0 & f' & _ & _ & _ & E)]; rewrite E; simpl.
    + exists w3, stamped. repeat split; auto; try discriminate.
      simpl. apply lookup_insert_eq.
    + exists (set_files (<[out := NFile f']> (files w3)) w3), f'.
      repeat split; auto; try discriminate.
      * simpl. apply lookup_insert_eq.
      * intros q Hq. simpl. rewrite !lookup_insert_ne by congruence. reflexivity.
  - exists w3, stamped. repeat split; auto.
    simpl. apply lookup_insert_eq.
Qed.

Lemma transfer_succeeds rt fuel dest_dir folder_name dt write_exif child c w f :
  files w !! child = Some (NFile f) ->
  is_dir (files w) dest_dir = true ->
  (size (files w) < fuel)%nat ->
  exists out w' f',
    ensure_unique_path fuel (files w)
      (joinpath dest_dir (new_name folder_name (name child))) = Some out /\
    transfer rt fuel dest_dir folder_name dt write_exif child c w
      = (Ok (add_copied c), w') /\
    path_exists (files w) out = false /\
    parent out = dest_dir /\
    files w' !! out = Some (NFile f') /\
    (write_exif = false ->
     f' = mkFile (content f) (st_mode f) (timestamp dt) (timestamp dt)) /\
    (forall q, q <> out -> files w' !! q = files w !! q) /\
    tz_reads w' = tz_reads w /\ stdout w' = stdout w.
Proof.
  intros Hchild Hdest Hfuel.
  destruct (ensure_unique_path_total fuel (files w)
              (joinpath dest_dir (new_name folder_name (name child))) Hfuel)
    as (out & Hout & _).
  destruct (transfer_at rt fuel dest_dir folder_name dt write_exif child c w f out
              Hchild Hdest Hout) as (w' & f' & H).
  exists out, w', f'. split; [exact Hout | exact H].
Qed.

Lemma is_file_lookup (fs : gmap path node) p :
  is_file fs p = true -> exists f, fs !! p = Some (NFile f).
Proof. unfold is_file. destruct (fs !! p) as [[f| |]|]; try discriminate. eauto. Qed.

(** C8. A regular file of an accepted folder is copied exactly when its
    lowercased name is one of [merged.jpg], [primary.jpg], [secondary.jpg],
    [video.mp4].  If it is not, nothing happens: the world and both counters
    stay as they were.  If it is, one file appears in the destination
    directory, at a path that was free, nothing else changes, and [copied]
    grows by one.  [MERGED.JPG] is selected like [merged.jpg];
    [thumbnail.png] is not. *)
Theorem C8_target_set_selects rt fuel dest_dir folder_name dt write_exif child c w :
  is_file (files w) child = true ->
  is_dir (files w) dest_dir = true ->
  (size (files w) < fuel)%nat ->
  (is_target rt (name child) = true <-> lower rt (name child) ∈ TARGET_FILES) /\
  (exists w',
     process_child rt fuel dest_dir folder_name dt write_exif child c w
       = (Ok (if is_target rt (name child)
              then mkCounters (copied c + 1) (skipped c) else c), w') /\
     (is_target rt (name child) = false -> w' = w) /\
     (is_target rt (name child) = true ->
      exists out,
        path_exists (files w) out = false /\ parent out = dest_dir /\
        is_file (files w') out = true /\
        forall q, q <> out -> files w' !! q = files w !! q)) /\
  is_target rt (str_of "MERGED.JPG") = is_target rt (str_of "merged.jpg") /\
  is_target rt (str_of "merged.jpg") = true /\
  is_target rt (str_of "primary.jpg") = true /\
  is_target rt (str_of "secondary.jpg") = true /\
  is_target rt (str_of "video.mp4") = true /\
  is_target rt (str_of "thumbnail.png") = false.
Proof.
  intros Hfile Hdest Hfuel.
  split; [unfold is_target; apply bool_decide_eq_true|].
  split; [|repeat split; vm_compute; reflexivity].
  unfold process_child, bind, get_files. rewrite Hfile. simpl.
  destruct (is_target rt (name child)) eqn:Ht; simpl.
  - destruct (is_file_lookup _ _ Hfile) as (f & Hf).
    destruct (transfer_succeeds rt fuel dest_dir folder_name dt write_exif child c w f
                Hf Hdest Hfuel)
      as (out & w' & f' & _ & Htr & Hfree & Hpar & Hout & _ & Hrest & _).
    exists w'. split; [exact Htr|]. split; [discriminate|].
    intros _. exists out. unfold is_file. rewrite Hout. auto.
  - exists w. split; [reflexivity|]. split; [reflexivity | discriminate].
Qed.

Lemma C8_target_set_selects_witness :
  (exists w',
     process_child ascii_runtime 10 out_dir accepted_folder folder_instant false
       upper_child (mkCounters 0 0) upper_world = (Ok (mkCounters 1 0), w')) /\
  process_child ascii_runtime 10 out_dir accepted_folder folder_instant false
    thumb_child (mkCounters 0 0) upper_world = (Ok (mkCounters 0 0), upper_world).
Proof.
  assert (Hdest : is_dir (files upper_world) out_dir = true) by (vm_compute; reflexivity).
  assert (Hfuel : (size (files upper_world) < 10)%nat) by (vm_compute; lia).
  split.
  - assert (Hfile : is_file (files upper_world) upper_child = true)
      by (vm_compute; reflexivity).
    pose proof (C8_target_set_selects ascii_runtime 10 out_dir accepted_folder
                  folder_instant false upper_child (mkCounters 0 0) upper_world
                  Hfile Hdest Hfuel) as (_ & (w' & Hrun & _) & _).
    exists w'. exact Hrun.
  - assert (Hfile : is_file (files upper_world) thumb_child = true)
      by (vm_compute; reflexivity).
    pose proof (C8_target_set_selects ascii_runtime 10 out_dir accepted_folder
                  folder_instant false thumb_child (mkCounters 0 0) upper_world
                  Hfile Hdest Hfuel) as (_ & (w' & Hrun & Hsame & _) & _).
    rewrite (Hsame ltac:(vm_compute; reflexivity)) in Hrun. exact Hrun.
Defined.

(** Entries of an accepted folder that are not regular files are passed
    over. *)
Lemma process_child_not_a_file rt fuel dest_dir folder_name dt write_exif child c w :
  is_file (files w) child = false ->
  process_child rt fuel dest_dir folder_name dt write_exif child c w = (Ok c, w).
Proof.
  intros H. unfold process_child, bind, get_files. rewrite H. reflexivity.
Qed.

(** C10. Membership is decided on the lowercased name, but the copy is
    named after the name as it is: the allocator is asked for
    [dest_dir / (folder_name ++ "-" ++ name)], and when that path is free
    the copy is made exactly there, every other path staying as it was.
    For [MERGED.JPG] in folder [F] this is [F-MERGED.JPG], which differs
    from [F-merged.jpg]. *)
Theorem C10_dest_name_keeps_case rt fuel dest_dir folder_name dt write_exif child c w :
  is_file (files w) child = true ->
  is_target rt (name child) = true ->
  is_dir (files w) dest_dir = true ->
  path_exists (files w) (dest_dir ++ [folder_name ++ str_of "-" ++ name child]) = false ->
  (exists w',
     process_child rt fuel dest_dir folder_name dt write_exif child c w
       = (Ok (mkCounters (copied c + 1) (skipped c)), w') /\
     is_file (files w') (dest_dir ++ [folder_name ++ str_of "-" ++ name child]) = true /\
     forall q, q <> dest_dir ++ [folder_name ++ str_of "-" ++ name child] ->
               files w' !! q = files w !! q) /\
  new_name folder_name (str_of "MERGED.JPG") = folder_name ++ str_of "-MERGED.JPG" /\
  new_name folder_name (str_of "MERGED.JPG") <> new_name folder_name (str_of "merged.jpg").
Proof.
  intros Hfile Ht Hdest Hfree.
  split.
  - destruct (is_file_lookup _ _ Hfile) as (f & Hf).
    assert (Hout : ensure_unique_path fuel (files w)
                     (joinpath dest_dir (new_name folder_name (name child)))
                   = Some (dest_dir ++ [folder_name ++ str_of "-" ++ name child])).
    { unfold ensure_unique_path, joinpath, new_name. rewrite Hfree. reflexivity. }
    destruct (transfer_at rt fuel dest_dir folder_name dt write_exif child c w f _
                Hf Hdest Hout)
      as (w' & f' & Htr & _ & _ & Hcopy & _ & Hrest & _).
    exists w'. split.
    + unfold process_child, bind, get_files. rewrite Hfile, Ht. exact Htr.
    + split; [unfold is_file; rewrite Hcopy; reflexivity | exact Hrest].
  - split; [reflexivity|].
    unfold new_name. intros H. apply app_inv_head in H. discriminate H.
Qed.

Lemma C10_dest_name_keeps_case_witness :
  exists w',
    process_child ascii_runtime 10 out_dir accepted_folder folder_instant false
      upper_child (mkCounters 0 0) upper_world = (Ok (mkCounters 1 0), w') /\
    is_file (files w') [str_of "out"; str_of "2022-11-07-15-09-47-MERGED.JPG"] = true /\
    files w' !! [str_of "out"; str_of "2022-11-07-15-09-47-merged.jpg"] = None.
Proof.
  pose proof (C10_dest_name_keeps_case ascii_runtime 10 out_dir accepted_folder
                folder_instant false upper_child (mkCounters 0 0) upper_world
                ltac:(vm_compute; reflexivity) ltac:(vm_compute; reflexivity)
                ltac:(vm_compute; reflexivity) ltac:(vm_compute; reflexivity))
    as ((w' & Hrun & Hcopy & Hrest) & _).
  exists w'. split; [exact Hrun|]. split; [exact Hcopy|].
  rewrite Hrest; [vm_compute; reflexivity|].
  intros H. vm_compute in H. discriminate H.
Defined.

(** ** The zone of local-time instants *)

(** C4, as the code has it.  Without the UTC flag, a valid folder name is
    resolved with the offset the host reports at the moment of this very
    call, and each call asks the host anew: of two folders resolved one
    after the other, the first gets the offset of the first query and the
    second the offset of the next one.  They agree when the host's offset
    does not change in between. *)
Theorem C4_offset_read_per_folder rt nm1 nm2 a1 a2 a3 a4 a5 a6 b1 b2 b3 b4 b5 b6 w :
  FOLDER_RE_match rt nm1 = Some [a1; a2; a3; a4; a5; a6] ->
  valid_fields (int_of rt a1) (int_of rt a2) (int_of rt a3)
               (int_of rt a4) (int_of rt a5) (int_of rt a6) = true ->
  FOLDER_RE_match rt nm2 = Some [b1; b2; b3; b4; b5; b6] ->
  valid_fields (int_of rt b1) (int_of rt b2) (int_of rt b3)
               (int_of rt b4) (int_of rt b5) (int_of rt b6) = true ->
  parse_folder_datetime rt nm1 false w
    = (Ok (mkDatetime (int_of rt a1) (int_of rt a2) (int_of rt a3)
             (int_of rt a4) (int_of rt a5) (int_of rt a6)
             (Some (utcoffset_at rt (tz_reads w)))),
       mkWorld (files w) (S (tz_reads w)) (stdout w)) /\
  parse_both rt nm1 nm2 false w
    = (Ok (Some (utcoffset_at rt (tz_reads w)),
           Some (utcoffset_at rt (S (tz_reads w)))),
       mkWorld (files w) (S (S (tz_reads w))) (stdout w)) /\
  (utcoffset_at rt (S (tz_reads w)) = utcoffset_at rt (tz_reads w) ->
   fst (parse_both rt nm1 nm2 false w)
   = Ok (Some (utcoffset_at rt (tz_reads w)), Some (utcoffset_at rt (tz_reads w)))).
Proof.
  intros Ha Hva Hb Hvb.
  assert (Hboth : parse_both rt nm1 nm2 false w
                  = (Ok (Some (utcoffset_at rt (tz_reads w)),
                         Some (utcoffset_at rt (S (tz_reads w)))),
                     mkWorld (files w) (S (S (tz_reads w))) (stdout w))).
  { unfold parse_both, bind.
    rewrite (parse_valid _ _ _ _ _ _ _ _ false w Ha Hva).
    rewrite (parse_valid _ _ _ _ _ _ _ _ false _ Hb Hvb). reflexivity. }
  split; [exact (parse_valid _ _ _ _ _ _ _ _ false w Ha Hva)|].
  split; [exact Hboth|].
  intros Hsame. rewrite Hboth, Hsame. reflexivity.
Qed.

Lemma C4_offset_read_per_folder_witness :
  parse_folder_datetime ascii_runtime accepted_folder false sample_world
    = (Ok (mkDatetime 2022 11 7 15 9 47 (Some 3600)), mkWorld sample_fs 1 []) /\
  parse_both ascii_runtime accepted_folder later_folder false sample_world
    = (Ok (Some 3600, Some 3600), mkWorld sample_fs 2 []).
Proof.
  pose proof (C4_offset_read_per_folder ascii_runtime accepted_folder later_folder
                (str_of "2022") (str_of "11") (str_of "07")
                (str_of "15") (str_of "09") (str_of "47")
                (str_of "2022") (str_of "11") (str_of "07")
                (str_of "15") (str_of "09") (str_of "48")
                sample_world eq_refl eq_refl eq_refl eq_refl) as (H1 & H2 & _).
  split; [exact H1 | exact H2].
Defined.

(** C4 as stated fails: on a host whose offset moves from +1h to +2h while
    the run lasts, the two folders of one run are resolved with different
    offsets, and the copies are stamped accordingly. *)
Lemma C4_offset_not_captured_once :
  fst (parse_both two_zone_runtime accepted_folder later_folder false two_folder_world)
    = Ok (Some 3600, Some 7200) /\
  fst (main two_zone_runtime 10 [str_of "src"] out_dir false false two_folder_world)
    = Ok tt /\
  files (snd (main two_zone_runtime 10 [str_of "src"] out_dir false false two_folder_world))
    !! [str_of "out"; str_of "2022-11-07-15-09-47-primary.jpg"]
    = Some (NFile (mkFile [1%N] 420 (1667833787 - 3600) (1667833787 - 3600))) /\
  files (snd (main two_zone_runtime 10 [str_of "src"] out_dir false false two_folder_world))
    !! [str_of "out"; str_of "2022-11-07-15-09-48-primary.jpg"]
    = Some (NFile (mkFile [2%N] 420 (1667833788 - 7200) (1667833788 - 7200))).
Proof. vm_compute. repeat split; reflexivity. Qed.

(** ** The program at work *)

Lemma C7_repeated_requests_witness :
  request_n 3 3 empty_out_fs wanted (mkFile [9%N] 420 0 0)
  = Some [ [str_of "out"; str_of "a.jpg"];
           [str_of "out"; str_of "a-1.jpg"];
           [str_of "out"; str_of "a-2.jpg"] ].
Proof.
  refine (proj1 (proj2 (C7_repeated_requests 3 empty_out_fs wanted (mkFile [9%N] 420 0 0))
                   _ _ 3%nat _)).
  - vm_compute. reflexivity.
  - intros [|[|[|j]]] Hj; try lia; vm_compute; reflexivity.
  - lia.
Defined.

Example ensure_unique_path_crowded :
  ensure_unique_path 5 crowded_fs wanted = Some [str_of "out"; str_of "a-2.jpg"].
Proof. vm_compute. reflexivity. Qed.

Example ensure_unique_path_free_name :
  ensure_unique_path 0 empty_out_fs wanted = Some wanted.
Proof. vm_compute. reflexivity. Qed.

(** Month 13, the 31st of April, the 29th of February of a common year and
    year 0 match the pattern and are refused by [datetime]. *)
Example impossible_dates rt w :
  parse_folder_datetime rt (str_of "2022-13-07-15-09-47") false w
    = (Raise (Uncaught ValueError), w) /\
  parse_folder_datetime rt (str_of "2022-04-31-15-09-47") false w
    = (Raise (Uncaught ValueError), w) /\
  parse_folder_datetime rt (str_of "2023-02-29-15-09-47") true w
    = (Raise (Uncaught ValueError), w) /\
  parse_folder_datetime rt (str_of "0000-01-01-00-00-00") true w
    = (Raise (Uncaught ValueError), w) /\
  parse_folder_datetime rt (str_of "2024-02-29-23-59-59") true w
    = (Ok (mkDatetime 2024 2 29 23 59 59 (Some 0)), w).
Proof. repeat split; reflexivity. Qed.

(** An entry of the source directory that is not a directory is passed
    over without being counted. *)
Lemma process_entry_not_a_directory rt fuel dest_dir use_utc write_exif entry c w :
  is_dir (files w) entry = false ->
  process_entry rt fuel dest_dir use_utc write_exif entry c w = (Ok c, w).
Proof.
  intros H. unfold process_entry, bind, get_files. rewrite H. reflexivity.
Qed.

(** The run of the specification: one accepted folder holding [primary.jpg]
    and [notes.txt], and a folder [badname].  With [--utc] one file is
    copied, stamped 2022-11-07 15:09:47 UTC, and one folder is skipped. *)
Example end_to_end_utc :
  fst (main ascii_runtime 10 [str_of "src"] out_dir true false sample_world) = Ok tt /\
  stdout (snd (main ascii_runtime 10 [str_of "src"] out_dir true false sample_world))
    = [str_of "Done. Copied: 1, Skipped folders (non-matching pattern): 1";
       str_of "Output folder: /out"] /\
  listdir (files (snd (main ascii_runtime 10 [str_of "src"] out_dir true false sample_world)))
          out_dir
    = [str_of "2022-11-07-15-09-47-primary.jpg"] /\
  files (snd (main ascii_runtime 10 [str_of "src"] out_dir true false sample_world))
    !! [str_of "out"; str_of "2022-11-07-15-09-47-primary.jpg"]
    = Some (NFile (mkFile [1; 2; 3]%N 420 1667833787 1667833787)).
Proof. vm_compute. repeat split; reflexivity. Qed.

(** A second run into the same destination adds copies suffixed [-1]. *)
Example second_run_suffixes :
  length (listdir (files (snd (main ascii_runtime 10 [str_of "src"] out_dir true false
                         (snd (main ascii_runtime 10 [str_of "src"] out_dir true false
                                 sample_world)))))
          out_dir) = 2%nat /\
  is_file (files (snd (main ascii_runtime 10 [str_of "src"] out_dir true false
                         (snd (main ascii_runtime 10 [str_of "src"] out_dir true false
                                 sample_world)))))
          [str_of "out"; str_of "2022-11-07-15-09-47-primary.jpg"] = true /\
  is_file (files (snd (main ascii_runtime 10 [str_of "src"] out_dir true false
                         (snd (main ascii_runtime 10 [str_of "src"] out_dir true false
                                 sample_world)))))
          [str_of "out"; str_of "2022-11-07-15-09-47-primary-1.jpg"] = true.
Proof. vm_compute. repeat split; reflexivity. Qed.

(** With [--exif]: a [piexif] that cannot load the file leaves the copy as
    it is, one that can rewrites it; the file is counted either way. *)
Example exif_failure_still_counted :
  fst (process_child blind_runtime 10 out_dir accepted_folder folder_instant true
         upper_child (mkCounters 0 0) upper_world) = Ok (mkCounters 1 0) /\
  files (snd (process_child blind_runtime 10 out_dir accepted_folder folder_instant true
                upper_child (mkCounters 0 0) upper_world))
    !! [str_of "out"; str_of "2022-11-07-15-09-47-MERGED.JPG"]
    = Some (NFile (mkFile [1; 2; 3]%N 420 1667833787 1667833787)) /\
  fst (process_child plain_runtime 10 out_dir accepted_folder folder_instant true
         upper_child (mkCounters 0 0) upper_world) = Ok (mkCounters 1 0) /\
  files (snd (process_child plain_runtime 10 out_dir accepted_folder folder_instant true
                upper_child (mkCounters 0 0) upper_world))
    !! [str_of "out"; str_of "2022-11-07-15-09-47-MERGED.JPG"]
    = Some (NFile (mkFile ([1; 2; 3]%N ++ str_of "2022:11:07 15:09:47")
                          420 1667833787 1667833787)).
Proof. vm_compute. repeat split; reflexivity. Qed.

(** * Further properties of the program *)

(** ** What the pattern accepts, and what the parser returns *)

Lemma at_end_cases tl : at_end tl = true <-> tl = [] \/ tl = [10%N].
Proof.
  split.
  - destruct tl as [|c [|c' tl]]; intros H; auto.
    + destruct (N.eq_dec c 10%N) as [->|Hc]; [auto|]. exfalso.
      destruct c as [|p]; [discriminate H|].
      do 4 (try (destruct p as [p|p|]; try discriminate H)). congruence.
    + destruct c as [|p]; [discriminate H|].
      do 4 (try (destruct p as [p|p|]; try discriminate H)).
  - intros [-> | ->]; reflexivity.
Qed.

(** X1. [FOLDER_RE] matches exactly the strings made of six groups of 4,
    2, 2, 2, 2 and 2 decimal digits joined by hyphens, followed by nothing
    or by a single final newline; the groups it returns are these six. *)
Theorem FOLDER_RE_match_iff rt s gs :
  FOLDER_RE_match rt s = Some gs <->
  exists g1 g2 g3 g4 g5 g6 tl,
    gs = [g1; g2; g3; g4; g5; g6] /\
    s = g1 ++ 45%N :: g2 ++ 45%N :: g3 ++ 45%N :: g4 ++ 45%N :: g5 ++ 45%N :: g6 ++ tl /\
    (tl = [] \/ tl = [10%N]) /\
    length g1 = 4%nat /\ length g2 = 2%nat /\ length g3 = 2%nat /\
    length g4 = 2%nat /\ length g5 = 2%nat /\ length g6 = 2%nat /\
    forallb (is_decimal rt) (g1 ++ g2 ++ g3 ++ g4 ++ g5 ++ g6) = true.
Proof.
  split.
  - intros H. apply FOLDER_RE_match_sound in H
      as (g1 & g2 & g3 & g4 & g5 & g6 & tl & Hgs & Hs & Htl & Hrest).
    exists g1, g2, g3, g4, g5, g6, tl.
    split; [exact Hgs|]. split; [exact Hs|].
    split; [apply at_end_cases; exact Htl | exact Hrest].
  - intros (g1 & g2 & g3 & g4 & g5 & g6 & tl & -> & -> & Htl & L1 & L2 & L3 & L4 & L5 & L6 & Hd).
    apply FOLDER_RE_match_complete; auto. apply at_end_cases. exact Htl.
Qed.

(** X2. [parse_folder_datetime] either raises [ValueError], leaving the
    world as it was, or returns a datetime that is zone-aware and whose
    fields form a valid date and time.  It never touches the files; with
    the UTC flag the zone is UTC and the host is not asked, without it the
    zone is the one the host reports at this call, asked exactly once. *)
Theorem parse_folder_datetime_result rt nm use_utc w :
  parse_folder_datetime rt nm use_utc w = (Raise (Uncaught ValueError), w) \/
  exists dt tz w',
    parse_folder_datetime rt nm use_utc w = (Ok dt, w') /\
    tzinfo dt = Some tz /\
    valid_fields (year dt) (month dt) (day dt) (hour dt) (minute dt) (second dt) = true /\
    files w' = files w /\ stdout w' = stdout w /\
    (if use_utc then tz = 0 /\ w' = w
     else tz = utcoffset_at rt (tz_reads w) /\ tz_reads w' = S (tz_reads w)).
Proof.
  destruct (FOLDER_RE_match rt nm) as [gs|] eqn:Hm;
    [|left; apply parse_no_match; exact Hm].
  destruct (FOLDER_RE_match_sound _ _ _ Hm)
    as (g1 & g2 & g3 & g4 & g5 & g6 & tl & -> & _).
  destruct (valid_fields (int_of rt g1) (int_of rt g2) (int_of rt g3)
              (int_of rt g4) (int_of rt g5) (int_of rt g6)) eqn:Hv.
  - right. rewrite (parse_valid _ _ _ _ _ _ _ _ use_utc w Hm Hv).
    destruct use_utc; do 3 eexists; (split; [reflexivity|]); simpl;
      rewrite Hv; auto 10.
  - left. eapply parse_invalid; eauto.
Qed.

(** ** The names the allocator makes *)

Lemma rfind_app_r c a b :
  0 <= rfind c b -> rfind c (a ++ b) = Z.of_nat (length a) + rfind c b.
Proof.
  intros Hb. induction a as [|x a IH]; simpl rfind; simpl length.
  - simpl. lia.
  - rewrite IH. destruct (Z.leb_spec 0 (Z.of_nat (length a) + rfind c b)); lia.
Qed.

Lemma rfind_drop c s :
  0 <= rfind c s -> rfind c (drop (Z.to_nat (rfind c s)) s) = 0.
Proof.
  induction s as [|x s IH]; simpl; [lia|].
  destruct (Z.leb_spec 0 (rfind c s)) as [Hr|Hr].
  - intros _. replace (Z.to_nat (rfind c s + 1)) with (S (Z.to_nat (rfind c s))) by lia.
    simpl. apply IH. exact Hr.
  - destruct (N.eqb_spec x c) as [->|Hx]; [|lia].
    intros _. simpl.
    destruct (Z.leb_spec 0 (rfind c s)); [lia|]. rewrite N.eqb_refl. reflexivity.
Qed.

Lemma rfind_bound c s : -1 <= rfind c s < Z.of_nat (length s).
Proof.
  induction s as [|x s IH]; simpl; [lia|].
  destruct (Z.leb_spec 0 (rfind c s)); [lia|].
  destruct (x =? c)%N; lia.
Qed.

Lemma name_joinpath q x : name (joinpath q x) = x.
Proof. unfold name, joinpath. rewrite last_snoc. reflexivity. Qed.

Lemma parent_joinpath q x : parent (joinpath q x) = q.
Proof. unfold parent, joinpath. apply removelast_last. Qed.

Lemma probe_result (fuel : nat) (fs : gmap path node) p i q :
  probe fuel fs p i = Some q -> exists j, i <= j /\ q = candidate p j.
Proof.
  revert i; induction fuel as [|fuel IH]; intros i; simpl; [discriminate|].
  destruct (negb _).
  - intros [= <-]. exists i. split; [lia | reflexivity].
  - intros H. destruct (IH _ H) as (j & Hj & ->). exists j. split; [lia | reflexivity].
Qed.

(** The suffixed name of a path that has an extension: the number goes
    before the extension, which stays the last one. *)
Lemma candidate_extension p i :
  suffix p <> [] ->
  suffix (candidate p i) = suffix p /\
  stem (candidate p i) = stem p ++ str_of "-" ++ str_of (pretty i).
Proof.
  intros Hs.
  assert (Hhas : has_suffix (name p) = true).
  { unfold suffix in Hs. destruct (has_suffix (name p)); congruence. }
  pose proof Hhas as Hhas'. unfold has_suffix in Hhas'.
  apply andb_prop in Hhas' as [Hpos Hlast].
  apply Z.ltb_lt in Hpos, Hlast.
  pose proof (rfind_bound 46 (name p)) as Hb.
  assert (Hsuf : suffix p = drop (Z.to_nat (rfind 46 (name p))) (name p))
    by (unfold suffix; rewrite Hhas; reflexivity).
  assert (Hr0 : rfind 46 (suffix p) = 0) by (rewrite Hsuf; apply rfind_drop; lia).
  assert (Hlen : (2 <= length (suffix p))%nat) by (rewrite Hsuf, length_drop; lia).
  set (pre := stem p ++ str_of "-" ++ str_of (pretty i)).
  assert (Hname : name (candidate p i) = pre ++ suffix p).
  { unfold candidate. rewrite name_joinpath. unfold pre.
    rewrite <- !app_assoc. reflexivity. }
  assert (Hr : rfind 46 (name (candidate p i)) = Z.of_nat (length pre)).
  { rewrite Hname, rfind_app_r by lia. lia. }
  assert (Hpre : (1 <= length pre)%nat).
  { unfold pre. rewrite !length_app. simpl. lia. }
  assert (Hhas2 : has_suffix (name (candidate p i)) = true).
  { unfold has_suffix. rewrite Hr, Hname, length_app.
    apply andb_true_intro. split; [apply Z.ltb_lt | apply Z.ltb_lt]; lia. }
  unfold suffix at 1, stem at 1. rewrite Hhas2, Hr, Nat2Z.id, Hname.
  split.
  - rewrite drop_app_length. reflexivity.
  - rewrite take_app_length. reflexivity.
Qed.

(** X3. For a path that has an extension, whatever [ensure_unique_path]
    returns lies in the same directory and has the same extension: it is
    the path itself, or its stem is the old stem followed by [-i] for some
    [i >= 1].  It is never a path that exists. *)
Theorem ensure_unique_path_keeps_extension (fuel : nat) (fs : gmap path node) p q :
  suffix p <> [] ->
  ensure_unique_path fuel fs p = Some q ->
  path_exists fs q = false /\
  parent q = parent p /\
  suffix q = suffix p /\
  (q = p \/ exists i, 1 <= i /\ stem q = stem p ++ str_of "-" ++ str_of (pretty i)).
Proof.
  intros Hs Hq.
  split; [eapply ensure_unique_path_free; exact Hq|].
  split; [eapply ensure_unique_path_parent; exact Hq|].
  unfold ensure_unique_path in Hq. destruct (negb (path_exists fs p)).
  - injection Hq as <-. auto.
  - apply probe_result in Hq as (i & Hi & ->).
    destruct (candidate_extension p i Hs) as [H1 H2].
    split; [exact H1|]. right. exists i. auto.
Qed.

Lemma ensure_unique_path_keeps_extension_witness :
  path_exists crowded_fs [str_of "out"; str_of "a-2.jpg"] = false /\
  parent [str_of "out"; str_of "a-2.jpg"] = parent wanted /\
  suffix [str_of "out"; str_of "a-2.jpg"] = suffix wanted /\
  ([str_of "out"; str_of "a-2.jpg"] = wanted \/
   exists i, 1 <= i /\
     stem [str_of "out"; str_of "a-2.jpg"] = stem wanted ++ str_of "-" ++ str_of (pretty i)).
Proof.
  apply (ensure_unique_path_keeps_extension 5 crowded_fs wanted).
  - vm_compute. discriminate.
  - vm_compute. reflexivity.
Defined.

(** A name that ends with a dot has no extension, and its suffixed name
    gets one. *)
Example candidate_of_dotted_name :
  suffix [str_of "a."] = [] /\ suffix (candidate [str_of "a."] 1) = str_of ".-1".
Proof. vm_compute. split; reflexivity. Qed.

(** ** The tags the metadata writer sets *)





(** ** What a run does to the tree and to its counters *)

Lemma only_adds_files_refl w : only_adds_files w w.
Proof. split; [reflexivity|]. split; [intros q|]; reflexivity. Qed.

Lemma only_adds_files_trans w1 w2 w3 :
  only_adds_files w1 w2 -> only_adds_files w2 w3 -> only_adds_files w1 w3.
Proof.
  intros (S1 & D1 & O1) (S2 & D2 & O2). split; [|split].
  - etransitivity; eassumption.
  - intros q. rewrite D2. apply D1.
  - congruence.
Qed.

Lemma only_adds_files_insert w out f' :
  files w !! out = None ->
  only_adds_files w (set_files (<[out := NFile f']> (files w)) w).
Proof.
  intros Hout. split; [|split]; simpl.
  - apply insert_subseteq. exact Hout.
  - intros q. unfold is_dir. destruct (decide (out = q)) as [<-|Hne].
    + rewrite lookup_insert_eq, Hout. reflexivity.
    + rewrite lookup_insert_ne by exact Hne. reflexivity.
  - reflexivity.
Qed.

Lemma copy2_effect src dst w :
  files w !! dst = None ->
  (exists e, copy2 src dst w = (Raise (Uncaught e), w)) \/
  (exists f, files w !! src = Some (NFile f) /\
             copy2 src dst w = (Ok tt, set_files (<[dst := NFile f]> (files w)) w)).
Proof.
  intros Hdst.
  assert (Hd : is_dir (files w) dst = false) by (unfold is_dir; rewrite Hdst; reflexivity).
  unfold copy2, bind, get_files. rewrite Hd.
  destruct (files w !! src) as [[f| |]|] eqn:Hsrc; try (left; eexists; reflexivity).
  rewrite bool_decide_eq_false_2 by (intros ->; congruence).
  rewrite Hdst. destruct (is_dir (files w) (parent dst)).
  - right. exists f. auto.
  - left. eexists. reflexivity.
Qed.

(** All that [transfer] can do: nothing to the tree, without counting; or
    one new regular file at a path that was free, counted. *)
Lemma transfer_cases rt fuel dest_dir folder_name dt write_exif child c w :
  transfer rt fuel dest_dir folder_name dt write_exif child c w = (OutOfFuel, w) \/
  (exists e, transfer rt fuel dest_dir folder_name dt write_exif child c w
             = (Raise (Uncaught e), w)) \/
  (exists out f',
     files w !! out = None /\
     transfer rt fuel dest_dir folder_name dt write_exif child c w
       = (Ok (add_copied c),
          mkWorld (<[out := NFile f']> (files w)) (tz_reads w) (stdout w))).
Proof.
  destruct (ensure_unique_path fuel (files w)
              (joinpath dest_dir (new_name folder_name (name child))))
    as [out|] eqn:Hout.
  2:{ left. unfold transfer. unfold bind at 1. unfold unique_path.
      rewrite Hout. reflexivity. }
  right.
  pose proof (ensure_unique_path_free _ _ _ _ Hout) as Hfree.
  assert (Hnone : files w !! out = None).
  { unfold path_exists in Hfree. destruct (files w !! out); [discriminate | reflexivity]. }
  destruct (copy2_effect child out w Hnone) as [(e & Hcopy) | (f & _ & Hcopy)].
  { left. exists e. unfold transfer. unfold bind at 1. unfold unique_path.
    rewrite Hout. unfold bind at 1. rewrite Hcopy. reflexivity. }
  right.
  set (stamped := mkFile (content f) (st_mode f) (timestamp dt) (timestamp dt)).
  set (w3 := mkWorld (<[out := NFile stamped]> (files w)) (tz_reads w) (stdout w)).
  assert (Hprefix : forall k : path -> M counters,
            (let* out_path := unique_path fuel
                                (joinpath dest_dir (new_name folder_name (name child))) in
             copy2 child out_path ;; set_fs_times out_path dt ;; k out_path) w
            = k out w3).
  { intros k. unfold bind at 1. unfold unique_path. rewrite Hout.
    unfold bind at 1. rewrite Hcopy. unfold bind at 1.
    rewrite (set_fs_times_file out dt f) by (simpl; apply lookup_insert_eq).
    unfold w3, set_files. simpl. rewrite insert_insert_eq. reflexivity. }
  unfold transfer.
  rewrite (Hprefix (fun out_path =>
     (if write_exif
      then let* updated := update_exif_datetime rt out_path dt in
           if negb updated then ret tt else ret tt
      else ret tt) ;; ret (add_copied c))).
  destruct write_exif.
  - unfold bind.
    destruct (update_exif_datetime_cases rt out dt w3)
      as [E | (px & f0 & f' & _ & _ & _ & E)]; rewrite E.
    + exists out, stamped. split; [exact Hnone | reflexivity].
    + exists out, f'. split; [exact Hnone|]. simpl. unfold set_files. simpl.
      rewrite insert_insert_eq. reflexivity.
  - exists out, stamped. split; [exact Hnone | reflexivity].
Qed.

Lemma transfer_effect rt fuel dest_dir folder_name dt write_exif child c w :
  tz_reads (snd (transfer rt fuel dest_dir folder_name dt write_exif child c w)) = tz_reads w /\
  stdout (snd (transfer rt fuel dest_dir folder_name dt write_exif child c w)) = stdout w /\
  ((files (snd (transfer rt fuel dest_dir folder_name dt write_exif child c w)) = files w /\
    forall c', fst (transfer rt fuel dest_dir folder_name dt write_exif child c w) <> Ok c') \/
   (exists out f',
      files w !! out = None /\
      files (snd (transfer rt fuel dest_dir folder_name dt write_exif child c w))
        = <[out := NFile f']> (files w) /\
      fst (transfer rt fuel dest_dir folder_name dt write_exif child c w)
        = Ok (add_copied c))).
Proof.
  destruct (transfer_cases rt fuel dest_dir folder_name dt write_exif child c w)
    as [E | [(e & E) | (out & f' & Hnone & E)]]; rewrite E; simpl.
  - split; [reflexivity|]. split; [reflexivity|]. left. split; [reflexivity | discriminate].
  - split; [reflexivity|]. split; [reflexivity|]. left. split; [reflexivity | discriminate].
  - split; [reflexivity|]. split; [reflexivity|]. right. eauto.
Qed.

Lemma process_child_effect rt fuel dest_dir folder_name dt write_exif child c w :
  only_adds_files w (snd (process_child rt fuel dest_dir folder_name dt write_exif child c w)) /\
  tz_reads (snd (process_child rt fuel dest_dir folder_name dt write_exif child c w))
    = tz_reads w /\
  forall c', fst (process_child rt fuel dest_dir folder_name dt write_exif child c w) = Ok c' ->
    skipped c' = skipped c /\
    copied c' - copied c
      = gained w (snd (process_child rt fuel dest_dir folder_name dt write_exif child c w)).
Proof.
  unfold process_child, bind, get_files, gained.
  destruct (negb (is_file (files w) child));
    [simpl; split; [apply only_adds_files_refl|]; split; [reflexivity|];
     intros c' [= <-]; split; lia|].
  destruct (negb (is_target rt (name child)));
    [simpl; split; [apply only_adds_files_refl|]; split; [reflexivity|];
     intros c' [= <-]; split; lia|].
  destruct (transfer_effect rt fuel dest_dir folder_name dt write_exif child c w)
    as (Htz & Hout & [(Hsame & Hno) | (out & f' & Hnone & Hfiles & Hok)]).
  - split; [|split; [exact Htz|]].
    + split; [rewrite Hsame; reflexivity|]. split; [|exact Hout].
      intros q. rewrite Hsame. reflexivity.
    + intros c' Hc'. exfalso. exact (Hno c' Hc').
  - split; [|split; [exact Htz|]].
    + pose proof (only_adds_files_insert w out f' Hnone) as (S1 & D1 & _).
      simpl in S1, D1. split; [rewrite Hfiles; exact S1|].
      split; [|exact Hout]. intros q. rewrite Hfiles. apply D1.
    + intros c' Hc'. rewrite Hok in Hc'. injection Hc' as <-.
      rewrite Hfiles, (map_size_insert_None _ _ _ Hnone). simpl. split; lia.
Qed.

Lemma for_children_effect rt fuel dest_dir folder_name dt write_exif children c w :
  only_adds_files w
    (snd (for_children rt fuel dest_dir folder_name dt write_exif children c w)) /\
  tz_reads (snd (for_children rt fuel dest_dir folder_name dt write_exif children c w))
    = tz_reads w /\
  forall c', fst (for_children rt fuel dest_dir folder_name dt write_exif children c w) = Ok c' ->
    skipped c' = skipped c /\
    copied c' - copied c
      = gained w (snd (for_children rt fuel dest_dir folder_name dt write_exif children c w)).
Proof.
  revert c w; induction children as [|child rest IH]; intros c w; simpl.
  - split; [apply only_adds_files_refl|]. split; [reflexivity|].
    intros c' [= <-]. unfold gained. split; lia.
  - unfold bind.
    destruct (process_child_effect rt fuel dest_dir folder_name dt write_exif child c w)
      as (A1 & T1 & C1).
    destruct (process_child rt fuel dest_dir folder_name dt write_exif child c w)
      as [[c1|e|] w1]; simpl in *;
      try (split; [exact A1|]; split; [exact T1|]; intros c' Hc'; discriminate Hc').
    destruct (IH c1 w1) as (A2 & T2 & C2).
    split; [eapply only_adds_files_trans; eassumption|].
    split; [congruence|].
    intros c' Hc'. destruct (C1 c1 eq_refl) as [S1 G1].
    destruct (C2 c' Hc') as [S2 G2]. unfold gained in *. split; lia.
Qed.

Lemma accepts_true rt nm :
  accepts rt nm = true ->
  exists g1 g2 g3 g4 g5 g6,
    FOLDER_RE_match rt nm = Some [g1; g2; g3; g4; g5; g6] /\
    valid_fields (int_of rt g1) (int_of rt g2) (int_of rt g3)
                 (int_of rt g4) (int_of rt g5) (int_of rt g6) = true.
Proof.
  unfold accepts. destruct (FOLDER_RE_match rt nm) as [gs|] eqn:Hm; [|discriminate].
  destruct (FOLDER_RE_match_sound _ _ _ Hm)
    as (g1 & g2 & g3 & g4 & g5 & g6 & tl & -> & _).
  simpl. eauto 10.
Qed.

Lemma accepts_false rt nm :
  accepts rt nm = false ->
  FOLDER_RE_match rt nm = None \/
  exists g1 g2 g3 g4 g5 g6,
    FOLDER_RE_match rt nm = Some [g1; g2; g3; g4; g5; g6] /\
    valid_fields (int_of rt g1) (int_of rt g2) (int_of rt g3)
                 (int_of rt g4) (int_of rt g5) (int_of rt g6) = false.
Proof.
  unfold accepts. destruct (FOLDER_RE_match rt nm) as [gs|] eqn:Hm; [|auto].
  destruct (FOLDER_RE_match_sound _ _ _ Hm)
    as (g1 & g2 & g3 & g4 & g5 & g6 & tl & -> & _).
  simpl. right. eauto 10.
Qed.

Lemma iterdir_of_dir p w :
  is_dir (files w) p = true ->
  iterdir p w = (Ok (map (joinpath p) (listdir (files w) p)), w).
Proof.
  unfold iterdir, bind, get_files, is_dir.
  destruct (files w !! p) as [[| |]|]; try discriminate. reflexivity.
Qed.

(** The three courses one turn of the outer loop can take. *)
Lemma process_entry_cases rt dest_dir use_utc write_exif entry c w :
  (is_dir (files w) entry = false /\
   forall fuel,
     process_entry rt fuel dest_dir use_utc write_exif entry c w = (Ok c, w)) \/
  (is_dir (files w) entry = true /\ accepts rt (name entry) = false /\
   forall fuel,
     process_entry rt fuel dest_dir use_utc write_exif entry c w = (Ok (add_skipped c), w)) \/
  (is_dir (files w) entry = true /\ accepts rt (name entry) = true /\
   exists dt,
     forall fuel,
       process_entry rt fuel dest_dir use_utc write_exif entry c w
       = for_children rt fuel dest_dir (name entry) dt write_exif
           (map (joinpath entry) (listdir (files w) entry)) c
           (if use_utc then w else mkWorld (files w) (S (tz_reads w)) (stdout w))).
Proof.
  destruct (is_dir (files w) entry) eqn:Hdir.
  2:{ left. split; [reflexivity|]. intros fuel.
      apply process_entry_not_a_directory. exact Hdir. }
  right. destruct (accepts rt (name entry)) eqn:Hacc.
  - right. split; [reflexivity|]. split; [reflexivity|].
    destruct (accepts_true _ _ Hacc) as (g1 & g2 & g3 & g4 & g5 & g6 & Hm & Hv).
    destruct use_utc; eexists; intros fuel; unfold process_entry; unfold bind at 1;
      unfold get_files; rewrite Hdir, Hm; cbn [negb]; unfold bind at 1;
      unfold try_parse; rewrite (parse_valid _ _ _ _ _ _ _ _ _ w Hm Hv);
      unfold bind at 1; rewrite iterdir_of_dir by exact Hdir; reflexivity.
  - left. split; [reflexivity|]. split; [reflexivity|]. intros fuel.
    unfold process_entry. unfold bind at 1. unfold get_files. rewrite Hdir. cbn [negb].
    destruct (accepts_false _ _ Hacc)
      as [Hm | (g1 & g2 & g3 & g4 & g5 & g6 & Hm & Hv)]; rewrite Hm; [reflexivity|].
    unfold bind, try_parse.
    rewrite (parse_invalid _ _ _ _ _ _ _ _ use_utc w Hm Hv). reflexivity.
Qed.

Lemma process_entry_effect rt fuel dest_dir use_utc write_exif entry c w r :
  process_entry rt fuel dest_dir use_utc write_exif entry c w = r ->
  only_adds_files w (snd r) /\
  tz_reads (snd r)
    = (tz_reads w
       + length (accepted_dirs rt (files w) [entry]) * (if use_utc then 0 else 1))%nat /\
  forall c', fst r = Ok c' ->
    skipped c' = skipped c + Z.of_nat (length (rejected_dirs rt (files w) [entry])) /\
    copied c' - copied c = gained w (snd r).
Proof.
  intros <-. unfold accepted_dirs, rejected_dirs, gained. simpl.
  destruct (process_entry_cases rt dest_dir use_utc write_exif entry c w)
    as [(Hdir & E) | [(Hdir & Hacc & E) | (Hdir & Hacc & dt & E)]];
    rewrite (E fuel); rewrite Hdir; try rewrite Hacc; simpl.
  - split; [apply only_adds_files_refl|]. split; [lia|].
    intros c' [= <-]. split; lia.
  - split; [apply only_adds_files_refl|]. split; [lia|].
    intros c' [= <-]. simpl. split; lia.
  - set (w2 := if use_utc then w else mkWorld (files w) (S (tz_reads w)) (stdout w)).
    assert (Hf : files w2 = files w) by (unfold w2; destruct use_utc; reflexivity).
    assert (Ho : stdout w2 = stdout w) by (unfold w2; destruct use_utc; reflexivity).
    assert (Ht : tz_reads w2 = (tz_reads w + 1 * (if use_utc then 0 else 1))%nat)
      by (unfold w2; destruct use_utc; simpl; lia).
    destruct (for_children_effect rt fuel dest_dir (name entry) dt write_exif
                (map (joinpath entry) (listdir (files w) entry)) c w2)
      as ((S1 & D1 & O1) & T1 & C1).
    split; [|split].
    + split; [rewrite Hf in S1; exact S1|]. split; [|congruence].
      intros q. rewrite D1, Hf. reflexivity.
    + rewrite T1, Ht. reflexivity.
    + intros c' Hc'. destruct (C1 c' Hc') as [Hs Hg]. unfold gained in Hg.
      rewrite Hf in Hg. split; lia.
Qed.

Lemma dirs_stable rt (w w' : world) entries :
  only_adds_files w w' ->
  rejected_dirs rt (files w') entries = rejected_dirs rt (files w) entries /\
  accepted_dirs rt (files w') entries = accepted_dirs rt (files w) entries.
Proof.
  intros (_ & D & _). unfold rejected_dirs, accepted_dirs.
  split; apply List.filter_ext; intros e; rewrite D; reflexivity.
Qed.

Lemma dirs_cons rt fs entry rest :
  length (rejected_dirs rt fs (entry :: rest))
    = (length (rejected_dirs rt fs [entry]) + length (rejected_dirs rt fs rest))%nat /\
  length (accepted_dirs rt fs (entry :: rest))
    = (length (accepted_dirs rt fs [entry]) + length (accepted_dirs rt fs rest))%nat.
Proof.
  unfold rejected_dirs, accepted_dirs. simpl.
  destruct (is_dir fs entry && negb (accepts rt (name entry)));
    destruct (is_dir fs entry && accepts rt (name entry)); simpl; split; lia.
Qed.

(** The invariant of the outer loop, by induction on the entries left. *)
Lemma for_entries_effect rt fuel dest_dir use_utc write_exif entries c w r :
  for_entries rt fuel dest_dir use_utc write_exif entries c w = r ->
  only_adds_files w (snd r) /\
  (forall c', fst r = Ok c' ->
     skipped c' = skipped c + Z.of_nat (length (rejected_dirs rt (files w) entries)) /\
     copied c' - copied c = gained w (snd r) /\
     tz_reads (snd r)
       = (tz_reads w
          + length (accepted_dirs rt (files w) entries) * (if use_utc then 0 else 1))%nat).
Proof.
  revert c w r; induction entries as [|entry rest IH]; intros c w r <-;
    cbn [for_entries].
  - split; [apply only_adds_files_refl|].
    intros c' [= <-]. unfold gained. cbn. repeat split; lia.
  - unfold bind.
    destruct (process_entry_effect rt fuel dest_dir use_utc write_exif entry c w _ eq_refl)
      as (A1 & T1 & C1).
    destruct (process_entry rt fuel dest_dir use_utc write_exif entry c w)
      as [[c1|e|] w1]; cbn [fst snd] in *;
      try (split; [exact A1 | intros c' Hc'; discriminate Hc']).
    destruct (IH c1 w1 _ eq_refl) as (A2 & C2).
    split; [eapply only_adds_files_trans; eassumption|].
    intros c' Hc'. destruct (C1 c1 eq_refl) as [S1 G1].
    destruct (C2 c' Hc') as (S2 & G2 & T2).
    destruct (dirs_stable rt w w1 rest A1) as [Hr Ha].
    destruct (dirs_cons rt (files w) entry rest) as [Lr La].
    rewrite Hr in S2. rewrite Ha in T2. unfold gained in *.
    split; [lia|]. split; [lia|]. rewrite T2, T1, La. destruct use_utc; lia.
Qed.

(** X5. What the outer loop does.  Whatever way it ends, nothing that
    existed is changed or removed, no directory appears and nothing is
    printed.  When it ends normally, [skipped] has grown by the number of
    directories with a rejected name among the entries, [copied] by the
    number of paths the tree has gained, and the host has been asked for
    its zone once per accepted folder (never with the UTC flag). *)
Theorem for_entries_accounting rt fuel dest_dir use_utc write_exif entries c w r :
  for_entries rt fuel dest_dir use_utc write_exif entries c w = r ->
  only_adds_files w (snd r) /\
  (forall c', fst r = Ok c' ->
     skipped c' = skipped c + Z.of_nat (length (rejected_dirs rt (files w) entries)) /\
     copied c' - copied c = gained w (snd r) /\
     tz_reads (snd r)
       = (tz_reads w
          + length (accepted_dirs rt (files w) entries) * (if use_utc then 0 else 1))%nat).
Proof. apply for_entries_effect. Qed.

Lemma for_entries_accounting_witness :
  only_adds_files ready_world
    (snd (for_entries ascii_runtime 10 out_dir false false sample_entries
            (mkCounters 0 0) ready_world)) /\
  fst (for_entries ascii_runtime 10 out_dir false false sample_entries
         (mkCounters 0 0) ready_world) = Ok (mkCounters 1 1) /\
  skipped (mkCounters 1 1)
    = 0 + Z.of_nat (length (rejected_dirs ascii_runtime (files ready_world) sample_entries)) /\
  tz_reads (snd (for_entries ascii_runtime 10 out_dir false false sample_entries
                   (mkCounters 0 0) ready_world)) = 1%nat.
Proof.
  pose proof (for_entries_accounting ascii_runtime 10 out_dir false false sample_entries
                (mkCounters 0 0) ready_world _ eq_refl) as (Hadds & Hcount).
  assert (Hrun : fst (for_entries ascii_runtime 10 out_dir false false sample_entries
                        (mkCounters 0 0) ready_world) = Ok (mkCounters 1 1))
    by (vm_compute; reflexivity).
  destruct (Hcount _ Hrun) as (Hs & _ & Ht).
  split; [exact Hadds|]. split; [exact Hrun|]. split; [exact Hs|].
  rewrite Ht. vm_compute. reflexivity.
Defined.

Lemma main_after_startup rt fuel source_dir dest_dir use_utc write_exif w fs' :
  mkdir_from dest_dir [] dest_dir (files w) = inr fs' ->
  is_dir fs' source_dir = true ->
  main rt fuel source_dir dest_dir use_utc write_exif w
  = match for_entries rt fuel dest_dir use_utc write_exif
            (sorted (map (joinpath source_dir) (listdir fs' source_dir)))
            (mkCounters 0 0) (set_files fs' w) with
    | (Ok c, w2) =>
        (Ok tt, mkWorld (files w2) (tz_reads w2)
                  (stdout w2 ++ [done_line c; output_line dest_dir]))
    | (Raise e, w2) => (Raise e, w2)
    | (OutOfFuel, w2) => (OutOfFuel, w2)
    end.
Proof.
  intros Hmk Hsrc. rewrite (main_source_valid _ _ _ _ _ _ _ _ Hmk Hsrc).
  unfold bind at 1. rewrite iterdir_of_dir by exact Hsrc.
  unfold bind at 1. simpl files.
  destruct (for_entries _ _ _ _ _ _ _ _) as [[c| |] w2]; try reflexivity.
  unfold bind, print. simpl. rewrite <- app_assoc. reflexivity.
Qed.

Lemma mkdir_from_subseteq (target done rest : path) (fs fs' : gmap path node) :
  mkdir_from target done rest fs = inr fs' -> fs ⊆ fs'.
Proof.
  intros H. apply map_subseteq_spec. intros q n Hq.
  eapply mkdir_from_keeps; eassumption.
Qed.

(** X6. Whatever way a run ends, it has not changed or removed anything
    that existed when it began: every path of the initial tree is still
    there, with the node it had.  In particular the source tree is intact
    and no file of the destination has been overwritten. *)
Theorem main_keeps_what_exists rt fuel source_dir dest_dir use_utc write_exif w :
  files w ⊆ files (snd (main rt fuel source_dir dest_dir use_utc write_exif w)).
Proof.
  destruct (mkdir_from dest_dir [] dest_dir (files w)) as [err|fs'] eqn:Hmk.
  { rewrite (main_mkdir_fails _ _ _ _ _ _ _ _ Hmk). reflexivity. }
  pose proof (mkdir_from_subseteq _ _ _ _ _ Hmk) as Hsub.
  destruct (is_dir fs' source_dir) eqn:Hsrc.
  2:{ rewrite (main_source_invalid _ _ _ _ _ _ _ _ Hmk Hsrc). exact Hsub. }
  rewrite (main_after_startup _ _ _ _ _ _ _ _ Hmk Hsrc).
  destruct (for_entries_effect rt fuel dest_dir use_utc write_exif
              (sorted (map (joinpath source_dir) (listdir fs' source_dir)))
              (mkCounters 0 0) (set_files fs' w) _ eq_refl) as ((Hadd & _) & _).
  destruct (for_entries _ _ _ _ _ _ _ _) as [[c| |] w2]; simpl in *;
    etransitivity; eassumption.
Qed.

(** X7. The summary a run prints is true to what it did.  A run that ends
    normally has printed exactly two lines, after the destination was made
    and the source found to be a directory: the first gives as [Copied] the
    number of paths the tree has gained since the destination was made,
    and as [Skipped folders] the number of directories of the source whose
    name is rejected; the second names the destination. *)
Theorem main_report rt fuel source_dir dest_dir use_utc write_exif w w' :
  main rt fuel source_dir dest_dir use_utc write_exif w = (Ok tt, w') ->
  exists fs1 c,
    mkdir_from dest_dir [] dest_dir (files w) = inr fs1 /\
    is_dir fs1 source_dir = true /\
    stdout w' = stdout w ++ [done_line c; output_line dest_dir] /\
    copied c = Z.of_nat (size (files w')) - Z.of_nat (size fs1) /\
    skipped c
      = Z.of_nat (length (rejected_dirs rt fs1
                            (sorted (map (joinpath source_dir) (listdir fs1 source_dir))))) /\
    fs1 ⊆ files w'.
Proof.
  intros Hrun.
  destruct (mkdir_from dest_dir [] dest_dir (files w)) as [err|fs'] eqn:Hmk.
  { rewrite (main_mkdir_fails _ _ _ _ _ _ _ _ Hmk) in Hrun. discriminate. }
  destruct (is_dir fs' source_dir) eqn:Hsrc.
  2:{ rewrite (main_source_invalid _ _ _ _ _ _ _ _ Hmk Hsrc) in Hrun. discriminate. }
  rewrite (main_after_startup _ _ _ _ _ _ _ _ Hmk Hsrc) in Hrun.
  destruct (for_entries_effect rt fuel dest_dir use_utc write_exif
              (sorted (map (joinpath source_dir) (listdir fs' source_dir)))
              (mkCounters 0 0) (set_files fs' w) _ eq_refl) as ((Hadd & _ & Hout) & Hcount).
  destruct (for_entries _ _ _ _ _ _ _ _) as [[c| |] w2]; try discriminate.
  injection Hrun as <-. cbn [fst snd] in *.
  destruct (Hcount c eq_refl) as (Hs & Hg & _). unfold gained in Hg. simpl in *.
  exists fs', c. rewrite Hout. repeat split; auto; lia.
Qed.

Lemma main_report_witness :
  exists fs1 c,
    mkdir_from out_dir [] out_dir (files sample_world) = inr fs1 /\
    is_dir fs1 [str_of "src"] = true /\
    stdout (snd (main ascii_runtime 10 [str_of "src"] out_dir true false sample_world))
      = stdout sample_world ++ [done_line c; output_line out_dir] /\
    copied c
      = Z.of_nat (size (files (snd (main ascii_runtime 10 [str_of "src"] out_dir true false
                                      sample_world))))
        - Z.of_nat (size fs1) /\
    skipped c
      = Z.of_nat (length (rejected_dirs ascii_runtime fs1
                            (sorted (map (joinpath [str_of "src"])
                                         (listdir fs1 [str_of "src"]))))) /\
    fs1 ⊆ files (snd (main ascii_runtime 10 [str_of "src"] out_dir true false sample_world)).
Proof.
  apply (main_report ascii_runtime 10 [str_of "src"] out_dir true false sample_world).
  vm_compute. reflexivity.
Defined.

(** ** The UTC flag and the zone of the host *)

Lemma digits_with_zone rt zone n s : digits (with_zone rt zone) n s = digits rt n s.
Proof.
  revert s; induction n as [|n IH]; intros s; simpl; [reflexivity|].
  destruct s as [|ch s]; [reflexivity|]. rewrite IH. reflexivity.
Qed.

Lemma FOLDER_RE_match_with_zone rt zone s :
  FOLDER_RE_match (with_zone rt zone) s = FOLDER_RE_match rt s.
Proof.
  unfold FOLDER_RE_match.
  repeat (rewrite digits_with_zone;
          destruct (digits rt _ _) as [[? ?]|]; cbn [mbind option_bind]; [|reflexivity];
          try (destruct (hyphen _) as [?|]; cbn [mbind option_bind]; [|reflexivity])).
  reflexivity.
Qed.

Lemma parse_utc_with_zone rt zone nm w :
  parse_folder_datetime (with_zone rt zone) nm true w = parse_folder_datetime rt nm true w.
Proof.
  unfold parse_folder_datetime. rewrite FOLDER_RE_match_with_zone.
  destruct (FOLDER_RE_match rt nm) as [gs|]; reflexivity.
Qed.

Lemma for_children_with_zone rt zone fuel dest_dir folder_name dt write_exif children c w :
  for_children (with_zone rt zone) fuel dest_dir folder_name dt write_exif children c w
  = for_children rt fuel dest_dir folder_name dt write_exif children c w.
Proof.
  revert c w; induction children as [|child rest IH]; intros c w; simpl; [reflexivity|].
  unfold bind.
  change (process_child (with_zone rt zone) fuel dest_dir folder_name dt write_exif child c w)
    with (process_child rt fuel dest_dir folder_name dt write_exif child c w).
  destruct (process_child rt fuel dest_dir folder_name dt write_exif child c w)
    as [[c1| |] w1]; [apply IH | reflexivity | reflexivity].
Qed.

Lemma process_entry_utc_with_zone rt zone fuel dest_dir write_exif entry c w :
  process_entry (with_zone rt zone) fuel dest_dir true write_exif entry c w
  = process_entry rt fuel dest_dir true write_exif entry c w.
Proof.
  unfold process_entry, bind, get_files.
  destruct (negb (is_dir (files w) entry)); [reflexivity|].
  rewrite FOLDER_RE_match_with_zone.
  destruct (FOLDER_RE_match rt (name entry)); [|reflexivity].
  unfold try_parse. rewrite parse_utc_with_zone.
  destruct (parse_folder_datetime rt (name entry) true w) as [[dt|[[]|]|] w1];
    try reflexivity.
  destruct (iterdir entry w1) as [[children| |] w2]; try reflexivity.
  apply for_children_with_zone.
Qed.

Lemma for_entries_utc_with_zone rt zone fuel dest_dir write_exif entries c w :
  for_entries (with_zone rt zone) fuel dest_dir true write_exif entries c w
  = for_entries rt fuel dest_dir true write_exif entries c w.
Proof.
  revert c w; induction entries as [|entry rest IH]; intros c w; simpl; [reflexivity|].
  unfold bind. rewrite process_entry_utc_with_zone.
  destruct (process_entry rt fuel dest_dir true write_exif entry c w)
    as [[c1| |] w1]; [apply IH | reflexivity | reflexivity].
Qed.

(** X8. With the UTC flag a run does not depend on the zone of the host:
    on hosts that differ only in the offsets they report, it ends the same
    way and leaves the same tree, the same timestamps and the same
    output. *)
Theorem main_utc_ignores_zone rt zone fuel source_dir dest_dir write_exif w :
  main (with_zone rt zone) fuel source_dir dest_dir true write_exif w
  = main rt fuel source_dir dest_dir true write_exif w.
Proof.
  destruct (mkdir_from dest_dir [] dest_dir (files w)) as [err|fs'] eqn:Hmk.
  { rewrite !(main_mkdir_fails _ _ _ _ _ _ _ _ Hmk). reflexivity. }
  destruct (is_dir fs' source_dir) eqn:Hsrc.
  2:{ rewrite !(main_source_invalid _ _ _ _ _ _ _ _ Hmk Hsrc). reflexivity. }
  rewrite !(main_after_startup _ _ _ _ _ _ _ _ Hmk Hsrc).
  rewrite for_entries_utc_with_zone. reflexivity.
Qed.

(** Without the flag it does: the same tree stamped on two hosts. *)
Example main_local_depends_on_zone :
  files (snd (main (with_zone ascii_runtime (fun _ => 0)) 10 [str_of "src"] out_dir
                false false sample_world))
    !! [str_of "out"; str_of "2022-11-07-15-09-47-primary.jpg"]
    = Some (NFile (mkFile [1; 2; 3]%N 420 1667833787 1667833787)) /\
  files (snd (main ascii_runtime 10 [str_of "src"] out_dir false false sample_world))
    !! [str_of "out"; str_of "2022-11-07-15-09-47-primary.jpg"]
    = Some (NFile (mkFile [1; 2; 3]%N 420 1667830187 1667830187)).
Proof. vm_compute. split; reflexivity. Qed.

(** ** Every run comes to an end *)

Lemma ensure_unique_path_stable (fs : gmap path node) p :
  exists q, forall fuel : nat, (size fs < fuel)%nat ->
    ensure_unique_path fuel fs p = Some q.
Proof.
  unfold ensure_unique_path. destruct (path_exists fs p) eqn:E; simpl; [|eauto].
  destruct (first_free fs p 1) as (k & Hk & Hfree & Hocc).
  exists (candidate p (1 + Z.of_nat k)). intros fuel Hfuel.
  apply probe_finds; [exact Hocc | exact Hfree | lia].
Qed.

Lemma bind_congr {A B} (m1 m2 : M A) (k : A -> M B) w :
  m1 w = m2 w -> bind m1 k w = bind m2 k w.
Proof. intros H. unfold bind. rewrite H. reflexivity. Qed.

Lemma bind_get_files {B} (k : gmap path node -> M B) w :
  bind get_files k w = k (files w) w.
Proof. reflexivity. Qed.

Lemma process_child_fuel rt f1 f2 dest_dir folder_name dt write_exif child c w :
  ensure_unique_path f1 (files w) (joinpath dest_dir (new_name folder_name (name child)))
  = ensure_unique_path f2 (files w) (joinpath dest_dir (new_name folder_name (name child))) ->
  process_child rt f1 dest_dir folder_name dt write_exif child c w
  = process_child rt f2 dest_dir folder_name dt write_exif child c w.
Proof.
  intros H. unfold process_child. rewrite !bind_get_files.
  destruct (negb (is_file (files w) child)); [reflexivity|].
  destruct (negb (is_target rt (name child))); [reflexivity|].
  unfold transfer. apply bind_congr. unfold unique_path. rewrite H. reflexivity.
Qed.

(** With the destination in place and fuel beyond the size of the tree,
    one turn of the inner loop ends normally, and the same way whatever
    the fuel. *)
Lemma process_child_stable rt dest_dir folder_name dt write_exif child c w :
  is_dir (files w) dest_dir = true ->
  exists c' w',
    (forall fuel : nat, (size (files w) < fuel)%nat ->
       process_child rt fuel dest_dir folder_name dt write_exif child c w = (Ok c', w')) /\
    only_adds_files w w'.
Proof.
  intros Hdest.
  set (fuel0 := S (size (files w))).
  assert (Hone : exists c' w',
            process_child rt fuel0 dest_dir folder_name dt write_exif child c w
            = (Ok c', w')).
  { unfold process_child, bind, get_files.
    destruct (is_file (files w) child) eqn:Hfile; simpl; [|unfold ret; eauto].
    destruct (is_target rt (name child)); simpl; [|unfold ret; eauto].
    destruct (is_file_lookup _ _ Hfile) as (f & Hf).
    destruct (transfer_succeeds rt fuel0 dest_dir folder_name dt write_exif child c w f
                Hf Hdest ltac:(unfold fuel0; lia))
      as (out & w' & f' & _ & Htr & _). eauto. }
  destruct Hone as (c' & w' & Hone). exists c', w'. split.
  - intros fuel Hfuel. rewrite <- Hone. apply process_child_fuel.
    destruct (ensure_unique_path_stable (files w)
                (joinpath dest_dir (new_name folder_name (name child)))) as (q & Hq).
    rewrite (Hq fuel Hfuel), (Hq fuel0 ltac:(unfold fuel0; lia)). reflexivity.
  - destruct (process_child_effect rt fuel0 dest_dir folder_name dt write_exif child c w)
      as (Hadd & _). rewrite Hone in Hadd. exact Hadd.
Qed.

Lemma for_children_stable rt dest_dir folder_name dt write_exif children c w :
  is_dir (files w) dest_dir = true ->
  exists fuel0 c' w',
    (forall fuel : nat, (fuel0 <= fuel)%nat ->
       for_children rt fuel dest_dir folder_name dt write_exif children c w = (Ok c', w')) /\
    only_adds_files w w'.
Proof.
  revert c w; induction children as [|child rest IH]; intros c w Hdest.
  - exists 0%nat, c, w. split; [intros; reflexivity | apply only_adds_files_refl].
  - destruct (process_child_stable rt dest_dir folder_name dt write_exif child c w Hdest)
      as (c1 & w1 & H1 & A1).
    assert (Hdest1 : is_dir (files w1) dest_dir = true).
    { destruct A1 as (_ & D & _). rewrite D. exact Hdest. }
    destruct (IH c1 w1 Hdest1) as (f2 & c2 & w2 & H2 & A2).
    exists (Nat.max (S (size (files w))) f2), c2, w2. split.
    + intros fuel Hfuel. simpl. unfold bind.
      rewrite (H1 fuel ltac:(lia)). apply H2. lia.
    + eapply only_adds_files_trans; eassumption.
Qed.

Lemma process_entry_stable rt dest_dir use_utc write_exif entry c w :
  is_dir (files w) dest_dir = true ->
  exists fuel0 c' w',
    (forall fuel : nat, (fuel0 <= fuel)%nat ->
       process_entry rt fuel dest_dir use_utc write_exif entry c w = (Ok c', w')) /\
    (forall q, is_dir (files w') q = is_dir (files w) q).
Proof.
  intros Hdest.
  destruct (process_entry_cases rt dest_dir use_utc write_exif entry c w)
    as [(_ & E) | [(_ & _ & E) | (_ & _ & dt & E)]].
  - exists 0%nat, c, w. split; [intros; apply E | reflexivity].
  - exists 0%nat, (add_skipped c), w. split; [intros; apply E | reflexivity].
  - set (w2 := if use_utc then w else mkWorld (files w) (S (tz_reads w)) (stdout w)) in *.
    assert (Hf : files w2 = files w) by (unfold w2; destruct use_utc; reflexivity).
    destruct (for_children_stable rt dest_dir (name entry) dt write_exif
                (map (joinpath entry) (listdir (files w) entry)) c w2
                ltac:(rewrite Hf; exact Hdest))
      as (f0 & c' & w' & H & (_ & D & _)).
    exists f0, c', w'. split.
    + intros fuel Hfuel. rewrite E. apply H. exact Hfuel.
    + intros q. rewrite D, Hf. reflexivity.
Qed.

Lemma for_entries_stable rt dest_dir use_utc write_exif entries c w :
  is_dir (files w) dest_dir = true ->
  exists fuel0 c' w',
    forall fuel : nat, (fuel0 <= fuel)%nat ->
      for_entries rt fuel dest_dir use_utc write_exif entries c w = (Ok c', w').
Proof.
  revert c w; induction entries as [|entry rest IH]; intros c w Hdest.
  - exists 0%nat, c, w. intros; reflexivity.
  - destruct (process_entry_stable rt dest_dir use_utc write_exif entry c w Hdest)
      as (f1 & c1 & w1 & H1 & D1).
    destruct (IH c1 w1 ltac:(rewrite D1; exact Hdest)) as (f2 & c2 & w2 & H2).
    exists (Nat.max f1 f2), c2, w2.
    intros fuel Hfuel. simpl. unfold bind.
    rewrite (H1 fuel ltac:(lia)). apply H2. lia.
Qed.

Lemma mkdir_from_target_is_dir (dest_dir : path) (fs fs' : gmap path node) :
  is_dir fs [] = true ->
  mkdir_from dest_dir [] dest_dir fs = inr fs' ->
  is_dir fs' dest_dir = true.
Proof.
  intros Hroot Hmk. unfold is_dir in *.
  destruct dest_dir as [|x rest].
  - simpl in Hmk. injection Hmk as <-. exact Hroot.
  - pose proof (mkdir_from_makes _ [] _ _ _ (length (x :: rest)) Hmk
                  ltac:(simpl; lia)) as H.
    rewrite firstn_all in H. cbn [app] in H. rewrite H. reflexivity.
Qed.

(** X9. Every run comes to an end, and in one of three ways.  In a tree
    whose root is a directory there is a number of turns beyond which the
    loop of [ensure_unique_path] never runs short, and with that many or
    more the run always gives the same result: the error of [mkdir] when
    the destination cannot be made, [SystemExit] with the message naming
    the source when the source is not a directory, and a normal return
    otherwise.  Once start-up has passed, no copy, no timestamp and no
    listing can fail. *)
Theorem main_completes rt source_dir dest_dir use_utc write_exif w :
  is_dir (files w) [] = true ->
  exists fuel0 r,
    (forall fuel : nat, (fuel0 <= fuel)%nat ->
       main rt fuel source_dir dest_dir use_utc write_exif w = r) /\
    match fst r with
    | Ok _ =>
        exists fs', mkdir_from dest_dir [] dest_dir (files w) = inr fs' /\
                    is_dir fs' source_dir = true
    | Raise (SystemExit msg) =>
        msg = exit_message source_dir /\
        exists fs', mkdir_from dest_dir [] dest_dir (files w) = inr fs' /\
                    is_dir fs' source_dir = false
    | Raise (Uncaught err) => mkdir_from dest_dir [] dest_dir (files w) = inl err
    | OutOfFuel => False
    end.
Proof.
  intros Hroot.
  destruct (mkdir_from dest_dir [] dest_dir (files w)) as [err|fs'] eqn:Hmk.
  { exists 0%nat, (Raise (Uncaught err), w). split; [|reflexivity].
    intros fuel _. apply main_mkdir_fails. exact Hmk. }
  destruct (is_dir fs' source_dir) eqn:Hsrc.
  2:{ exists 0%nat, (Raise (SystemExit (exit_message source_dir)), set_files fs' w).
      split; [|simpl; eauto].
      intros fuel _. apply main_source_invalid; assumption. }
  pose proof (mkdir_from_target_is_dir _ _ _ Hroot Hmk) as Hdest.
  destruct (for_entries_stable rt dest_dir use_utc write_exif
              (sorted (map (joinpath source_dir) (listdir fs' source_dir)))
              (mkCounters 0 0) (set_files fs' w) Hdest) as (f0 & c & w2 & H).
  exists f0, (Ok tt, mkWorld (files w2) (tz_reads w2)
                       (stdout w2 ++ [done_line c; output_line dest_dir])).
  split; [|simpl; eauto].
  intros fuel Hfuel. rewrite (main_after_startup _ _ _ _ _ _ _ _ Hmk Hsrc).
  rewrite (H fuel Hfuel). reflexivity.
Qed.

Lemma main_completes_witness :
  exists fuel0 r,
    (forall fuel : nat, (fuel0 <= fuel)%nat ->
       main ascii_runtime fuel [str_of "src"] out_dir false false sample_world = r) /\
    match fst r with
    | Ok _ =>
        exists fs', mkdir_from out_dir [] out_dir (files sample_world) = inr fs' /\
                    is_dir fs' [str_of "src"] = true
    | Raise (SystemExit msg) =>
        msg = exit_message [str_of "src"] /\
        exists fs', mkdir_from out_dir [] out_dir (files sample_world) = inr fs' /\
                    is_dir fs' [str_of "src"] = false
    | Raise (Uncaught err) => mkdir_from out_dir [] out_dir (files sample_world) = inl err
    | OutOfFuel => False
    end.
Proof.
  apply (main_completes ascii_runtime [str_of "src"] out_dir false false sample_world).
  vm_compute. reflexivity.
Defined.

(** Fuel is what the model adds to the loop, and too little of it shows:
    with two turns the third copy of the same name is not reached. *)
Example out_of_fuel_is_only_lack_of_fuel :
  ensure_unique_path 1 crowded_fs wanted = None /\
  ensure_unique_path 2 crowded_fs wanted = Some [str_of "out"; str_of "a-2.jpg"] /\
  ensure_unique_path 7 crowded_fs wanted = Some [str_of "out"; str_of "a-2.jpg"].
Proof. vm_compute. repeat split; reflexivity. Qed.

(** ** The copy and its name *)

(** X10. The copy of a target file, without the metadata step: it is a new
    path of the destination directory, holding the bytes and the mode of
    the source, with both its access time and its modification time set to
    the instant of the folder, whatever the times of the source were; the
    source itself is as it was. *)
Theorem copy_is_stamped rt fuel dest_dir folder_name dt child c w f :
  files w !! child = Some (NFile f) ->
  is_target rt (name child) = true ->
  is_dir (files w) dest_dir = true ->
  (size (files w) < fuel)%nat ->
  exists out w',
    process_child rt fuel dest_dir folder_name dt false child c w
      = (Ok (mkCounters (copied c + 1) (skipped c)), w') /\
    files w !! out = None /\
    parent out = dest_dir /\
    files w' !! out
      = Some (NFile (mkFile (content f) (st_mode f) (timestamp dt) (timestamp dt))) /\
    files w' !! child = Some (NFile f).
Proof.
  intros Hf Ht Hdest Hfuel.
  destruct (transfer_succeeds rt fuel dest_dir folder_name dt false child c w f
              Hf Hdest Hfuel)
    as (out & w' & f' & _ & Htr & Hfree & Hpar & Hout & Hstamp & Hrest & _).
  assert (Hnone : files w !! out = None).
  { unfold path_exists in Hfree. destruct (files w !! out); [discriminate | reflexivity]. }
  exists out, w'. split.
  - unfold process_child. rewrite bind_get_files. unfold is_file. rewrite Hf, Ht. exact Htr.
  - split; [exact Hnone|]. split; [exact Hpar|]. split.
    + rewrite Hout, (Hstamp eq_refl). reflexivity.
    + rewrite Hrest; [exact Hf|]. intros ->. congruence.
Qed.

Lemma copy_is_stamped_witness :
  exists out w',
    process_child ascii_runtime 10 out_dir accepted_folder folder_instant false
      upper_child (mkCounters 0 0) upper_world = (Ok (mkCounters 1 0), w') /\
    files upper_world !! out = None /\
    parent out = out_dir /\
    files w' !! out = Some (NFile (mkFile [1; 2; 3]%N 420 1667833787 1667833787)) /\
    files w' !! upper_child = Some (NFile (mkFile [1; 2; 3]%N 420 0 0)).
Proof.
  apply (copy_is_stamped ascii_runtime 10 out_dir accepted_folder folder_instant
           upper_child (mkCounters 0 0) upper_world (mkFile [1; 2; 3]%N 420 0 0)).
  - vm_compute. reflexivity.
  - vm_compute. reflexivity.
  - vm_compute. reflexivity.
  - vm_compute. lia.
Defined.

(** An accepted name is nineteen characters, followed by nothing or by a
    newline. *)
Lemma accepted_shape rt nm :
  accepts rt nm = true ->
  exists body tl, nm = body ++ tl /\ length body = 19%nat /\ (tl = [] \/ tl = [10%N]).
Proof.
  intros H. destruct (accepts_true _ _ H) as (g1 & g2 & g3 & g4 & g5 & g6 & Hm & _).
  apply FOLDER_RE_match_sound in Hm
    as (h1 & h2 & h3 & h4 & h5 & h6 & tl & _ & -> & Htl & L1 & L2 & L3 & L4 & L5 & L6 & _).
  apply at_end_cases in Htl.
  exists (h1 ++ 45%N :: h2 ++ 45%N :: h3 ++ 45%N :: h4 ++ 45%N :: h5 ++ 45%N :: h6), tl.
  split; [|split; [|exact Htl]].
  - repeat (rewrite <- ?app_assoc; rewrite <- ?app_comm_cons). reflexivity.
  - repeat (rewrite ?length_app; cbn [length]). lia.
Qed.

(** X11. Copies from different accepted folders, or of different files of
    one folder, never ask for the same destination name: on accepted
    folder names [new_name] is injective.  A name can only be taken by a
    file that was in the destination before. *)
Theorem new_name_injective rt folder1 folder2 child1 child2 :
  accepts rt folder1 = true ->
  accepts rt folder2 = true ->
  new_name folder1 child1 = new_name folder2 child2 ->
  folder1 = folder2 /\ child1 = child2.
Proof.
  intros H1 H2 Heq.
  destruct (accepted_shape _ _ H1) as (b1 & t1 & -> & L1 & Ht1).
  destruct (accepted_shape _ _ H2) as (b2 & t2 & -> & L2 & Ht2).
  unfold new_name in Heq. rewrite <- !app_assoc in Heq.
  apply app_inj_1 in Heq as [-> Heq]; [|congruence].
  destruct Ht1 as [-> | ->], Ht2 as [-> | ->]; simpl in Heq;
    try discriminate Heq; injection Heq as ->; auto.
Qed.

Lemma new_name_injective_witness :
  accepted_folder = accepted_folder /\ str_of "primary.jpg" = str_of "primary.jpg".
Proof.
  apply (new_name_injective ascii_runtime accepted_folder accepted_folder
           (str_of "primary.jpg") (str_of "primary.jpg")); reflexivity.
Defined.
